(** * git-data.js: commit-to-test-case attribution

    A shallow embedding of the script [git-data.js] and the properties of
    its diff parser, test-block extractor, commit collector, change-set
    resolver, attribution engine and line-count aggregator.

    The source holds two copies of the script.  They agree on
    [parseDiff], [getTestCaseFiles], [getTestCasesLineNumbersByFile],
    [getUpdatedTestCases] and [getTotalLinesByAuthor].  The second copy
    has the fuller [getCommits] (three matching strategies, times of day
    on the window, diagnostics) and [getListOfFiles] (blank lines
    dropped); it is the one embedded in [Git].  The functions of the
    first copy that differ are in [Git.Rev1], and what is proved of the
    one copy and fails of the other is stated for both.

    Modelling conventions.
    - A JavaScript string is a [string]: a sequence of code units, here
      restricted to the range 0..255.
    - A JavaScript number is a double.  The numbers of the script are
      non-negative integers or [Infinity]; each is kept as the [N] it
      equals, and the operations that make them ([parseInt], [++], [+])
      round to the nearest double, as in the language: they are exact
      up to 2^53 and not beyond.
    - The version-control tool, the file system and the Babel parser are
      outside the script; they enter as section variables.  So is the
      shell that [execSync] hands a command to; its reading of a command
      line is embedded for blanks, double quotes and comments.  Console
      output is left out. *)

From Stdlib Require Import String Ascii List NArith Bool Arith Lia Sorted.
Import ListNotations.

Local Open Scope string_scope.
Local Open Scope list_scope.

(* ================================================================== *)
(** ** JavaScript string primitives used by the script *)
(* ================================================================== *)

Module JS.

Definition LF : ascii := ascii_of_nat 10.
Definition TAB : ascii := ascii_of_nat 9.
Definition SPACE : ascii := ascii_of_nat 32.
Definition DQUOTE : ascii := ascii_of_nat 34.

Definition str (c : ascii) : string := String c EmptyString.

(** [s.startsWith(p)] *)
Definition startsWith (s p : string) : bool := String.prefix p s.

(** [s.split(c)] for a one-character separator: never the empty array,
    [''.split(c)] is [['']]. *)
Fixpoint split (c : ascii) (s : string) : list string :=
  match s with
  | EmptyString => [EmptyString]
  | String a s' =>
      if Ascii.eqb a c then EmptyString :: split c s'
      else match split c s' with
           | h :: t => String a h :: t
           | [] => [String a EmptyString]
           end
  end.

(** [parts.join(sep)] *)
Fixpoint join (sep : string) (parts : list string) : string :=
  match parts with
  | [] => EmptyString
  | [p] => p
  | p :: rest => p ++ sep ++ join sep rest
  end.

(** [s.includes(sub)] *)
Fixpoint includes (s sub : string) : bool :=
  startsWith s sub ||
  match s with
  | EmptyString => false
  | String _ s' => includes s' sub
  end.

(** White space as [trim] sees it, among the code units 0..255:
    TAB, LF, VT, FF, CR, SPACE and NBSP. *)
Definition isWhiteSpace (c : ascii) : bool :=
  let n := nat_of_ascii c in
  (((9 <=? n) && (n <=? 13)) || (n =? 32) || (n =? 160))%nat.

Fixpoint trimStart (s : string) : string :=
  match s with
  | EmptyString => EmptyString
  | String c s' => if isWhiteSpace c then trimStart s' else s
  end.

Fixpoint trimEnd (s : string) : string :=
  match s with
  | EmptyString => EmptyString
  | String c s' =>
      match trimEnd s' with
      | EmptyString => if isWhiteSpace c then EmptyString else str c
      | t => String c t
      end
  end.

(** [s.trim()] *)
Definition trim (s : string) : string := trimEnd (trimStart s).

(** Nothing but white space (the empty string included). *)
Fixpoint whitespaceOnly (s : string) : bool :=
match s with
| EmptyString => true
| String c s' => isWhiteSpace c && whitespaceOnly s'
end.

(** A string is truthy unless it is empty: [if (s)], [s ? a : b]. *)
Definition truthy (s : string) : bool :=
  match s with EmptyString => false | _ => true end.

(** [c.toLowerCase()] on one code unit of 0..255: A-Z and the Latin-1
    capitals U+00C0..U+00DE (but not the multiplication sign U+00D7). *)
Definition lowerChar (c : ascii) : ascii :=
  let n := nat_of_ascii c in
  if (((65 <=? n) && (n <=? 90))
      || ((192 <=? n) && (n <=? 222) && negb (n =? 215)))%nat
  then ascii_of_nat (n + 32) else c.

Fixpoint toLowerCase (s : string) : string :=
  match s with
  | EmptyString => EmptyString
  | String c s' => String (lowerChar c) (toLowerCase s')
  end.

(** The character class [[0-9]], which is also [\d]. *)
Definition isDigit (c : ascii) : bool :=
  let n := nat_of_ascii c in ((48 <=? n) && (n <=? 57))%nat.

Definition digitValue (c : ascii) : N := N.of_nat (nat_of_ascii c - 48).

(** *** Numbers

    Every number of the script is a non-negative integer or [Infinity]:
    it starts as [0] or as [parseInt] of a digit run and is changed by
    [++] and [+] only.  Such a number is an IEEE 754 double.  It is
    kept as the [N] it equals; [Infinity] is kept as 2^1024, the first
    power of two that no finite double reaches, so that it compares
    above every finite number, as [Infinity] does. *)

Definition MAX_SAFE : N := 9007199254740992.   (* 2^53 *)

Definition Infinity : N := N.shiftl 1 1024.

(** The double nearest to an integer, ties to the even significand.
    Below 2^53 every integer is a double.  From there on [n] has [53 + e]
    bits with [e >= 1]; the significand is made of its top 53 bits and
    the [e] bits below decide the rounding. *)
Definition roundDouble (n : N) : N :=
  if (n <? MAX_SAFE)%N then n
  else
    let e := (N.log2 n - 52)%N in
    let significand := N.shiftr n e in
    let rest := N.land n (N.ones e) in
    let half := N.shiftl 1 (e - 1) in
    let up := (half <? rest)%N || ((rest =? half)%N && N.odd significand) in
    let rounded := N.shiftl (if up then significand + 1 else significand)%N e in
    if (Infinity <=? rounded)%N then Infinity else rounded.

(** [a + b] on two such numbers: the exact sum, rounded. *)
Definition addDouble (a b : N) : N := roundDouble (a + b).

(** [x++] leaves [x + 1] in the variable. *)
Definition increment (x : N) : N := addDouble x 1.

(** The integer a string of decimal digits denotes. *)
Definition decimalValue (s : string) : N :=
  fold_left (fun acc c => (acc * 10 + digitValue c)%N)
            (list_ascii_of_string s) 0%N.

(** [parseInt(s, 10)] on a string of decimal digits: the number value
    of the integer the digits denote, that is the nearest double (the
    language lets an engine replace the digits after the twentieth by
    zeros; V8 rounds the exact value).  Both call sites of the script
    pass text that a regular expression has already checked to be a
    non-empty digit run. *)
Definition parseInt (s : string) : N := roundDouble (decimalValue s).

(** [/^\d+$/.test(s)] *)
Fixpoint allDigits (s : string) : bool :=
  match s with
  | EmptyString => true
  | String c s' => isDigit c && allDigits s'
  end.

Definition isDigitRun (s : string) : bool := truthy s && allDigits s.

(** A [Set] of strings keeps insertion order and ignores an element
    that is already present; [Array.from(set)] lists it in that order. *)
Definition has (set : list string) (x : string) : bool :=
  existsb (String.eqb x) set.

Definition add (set : list string) (x : string) : list string :=
  if has set x then set else set ++ [x].

End JS.

(* ================================================================== *)
(** ** Diff Parser: [parseDiff] *)
(* ================================================================== *)

Module DiffParser.
Import JS.

(** *** The hunk-header regular expression

    [/@@ -[0-9]+(?:,[0-9]+)? \+([0-9]+)(?:,([0-9]+))? @@/]

    written as a backtracking matcher in continuation-passing style:
    every quantifier is greedy and gives back what it took when the
    rest of the pattern fails. *)

(** A literal piece of the pattern. *)
Fixpoint lit {A} (p s : string) (k : string -> option A) : option A :=
  match p with
  | EmptyString => k s
  | String c p' =>
      match s with
      | String a s' => if Ascii.eqb a c then lit p' s' k else None
      | EmptyString => None
      end
  end.

(** [[0-9]+]: the continuation gets the matched text and the rest. *)
Fixpoint digits {A} (s : string) (k : string -> string -> option A)
  : option A :=
  match s with
  | String c s' =>
      if isDigit c then
        match digits s' (fun d r => k (String c d) r) with
        | Some x => Some x
        | None => k (str c) s'
        end
      else None
  | EmptyString => None
  end.

(** [(?:,[0-9]+)?] *)
Definition optCount {A} (s : string) (k : string -> option A) : option A :=
  match lit "," s (fun r => digits r (fun _ r' => k r')) with
  | Some x => Some x
  | None => k s
  end.

(** The whole pattern matched at the start of [s]; the result is
    capture group 1. *)
Definition hunkAt (s : string) : option string :=
  lit "@@ -" s (fun r1 =>
  digits r1 (fun _ r2 =>
  optCount r2 (fun r3 =>
  lit " +" r3 (fun r4 =>
  digits r4 (fun c r5 =>
  optCount r5 (fun r6 =>
  lit " @@" r6 (fun _ => Some c))))))).

(** [line.match(re)]: the leftmost position where the pattern matches. *)
Fixpoint hunkMatch (s : string) : option string :=
  match hunkAt s with
  | Some c => Some c
  | None =>
      match s with
      | String _ s' => hunkMatch s'
      | EmptyString => None
      end
  end.

(** *** The cursor and the per-line step *)

Record state := mkState { startLine : N; lineNumbers : list N }.

Definition init : state := mkState 0 [].

(** The body of [lines.forEach(line => ...)]. *)
Definition parseLine (st : state) (line : string) : state :=
  if startsWith line "@@" then
    match hunkMatch line with
    | Some c => mkState (parseInt c) (lineNumbers st)
    | None => st
    end
  else if startsWith line "+" && negb (startsWith line "+++") then
    mkState (increment (startLine st)) (lineNumbers st ++ [startLine st])
  else if negb (startsWith line "\") then
    mkState (increment (startLine st)) (lineNumbers st)
  else st.

Definition run (st : state) (lines : list string) : state :=
  fold_left parseLine lines st.

Definition parseDiff (diffOutput : string) : list N :=
  lineNumbers (run init (split LF diffOutput)).

(** Lines of a diff text, joined the way the tool prints them. *)
Definition unlines (ls : list string) : string := join (str LF) ls.

(** A line at which the cursor is reset. *)
Definition resets (line : string) : bool :=
  startsWith line "@@" &&
  match hunkMatch line with Some _ => true | None => false end.

(** A line the script takes for an addition. *)
Definition isAddition (line : string) : bool :=
  startsWith line "+" && negb (startsWith line "+++").

(** What follows a digit run in a header: not a digit. *)
Definition stops (r : string) : bool :=
match r with
| String c _ => negb (isDigit c)
| EmptyString => true
end.

(** The text of a well-formed hunk header
  [@@ -a[,b] +c[,d] @@] followed by anything. *)
Definition count (n : option string) : string :=
match n with
| Some digits => "," ++ digits
| None => ""
end.

Definition countOk (n : option string) : bool :=
match n with
| Some digits => isDigitRun digits
| None => true
end.

Definition hunkHeader (a : string) (b : option string) (c : string)
  (d : option string) (tail : string) : string :=
"@@ -" ++ a ++ count b ++ " +" ++ c ++ count d ++ " @@" ++ tail.

(** The cursor algorithm in the words of the specification, which knows
  three kinds of line: a hunk header resets the cursor, an addition is
  recorded and advances it, any other line that does not begin with a
  backslash advances it. *)
Definition statedLine (st : state) (line : string) : state :=
match (if startsWith line "@@" then hunkMatch line else None) with
| Some c => mkState (decimalValue c) (lineNumbers st)
| None =>
    if isAddition line then
      mkState (startLine st + 1) (lineNumbers st ++ [startLine st])
    else if negb (startsWith line "\") then
      mkState (startLine st + 1) (lineNumbers st)
    else st
end.

Definition statedParseDiff (diffOutput : string) : list N :=
lineNumbers (fold_left statedLine (split LF diffOutput) init).

End DiffParser.

(* ================================================================== *)
(** ** Attribution Engine: [getUpdatedTestCases] *)
(* ================================================================== *)

Module Attribution.

(** [{start, end}]: the lines a test block occupies. *)
Record LineRange := mkRange { start : N; end_ : N }.

(** [line >= testCase.start && line <= testCase.end] *)
Definition touches (testCase : LineRange) (line : N) : bool :=
  ((start testCase <=? line) && (line <=? end_ testCase))%N.

Definition getUpdatedTestCases
    (testCases : list LineRange) (updateLines : list N) : list LineRange :=
  filter (fun testCase => existsb (touches testCase) updateLines) testCases.

End Attribution.

(* ================================================================== *)
(** ** Test-file filter: [getTestCaseFiles] *)
(* ================================================================== *)

Module Minimatch.
Import JS.

(** [minimatch] is an npm package the script calls, not part of the
    repository.  All five patterns of the script have the shape
    [**/*<ext>], which the package compiles to the two-part pattern
    [GLOBSTAR; *<ext>]; this module follows the package's matcher
    ([match], [slashSplit], [matchOne]) for that shape under default
    options on a POSIX host. *)

Definition SLASH : ascii := ascii_of_nat 47.

Fixpoint endsWith (s suffix : string) : bool :=
  String.eqb s suffix ||
  match s with
  | EmptyString => false
  | String _ s' => endsWith s' suffix
  end.

(** Interior empty parts vanish when the separator is [/\/+/]. *)
Fixpoint dropInnerEmpty (parts : list string) : list string :=
  match parts with
  | [] => []
  | [p] => [p]
  | p :: rest => if truthy p then p :: dropInnerEmpty rest
                 else dropInnerEmpty rest
  end.

(** [f.split(/\/+/)] *)
Definition slashSplit (f : string) : list string :=
  match split SLASH f with
  | [] => []
  | p :: rest => p :: dropInnerEmpty rest
  end.

(** The path part [*<ext>]: any name that does not start with a dot
    and ends with [ext]. *)
Definition starDotExt (ext part : string) : bool :=
  negb (startsWith part ".") && endsWith part ext.

(** [matchOne] on what is left of the file once the globstar stops
    swallowing: one part that matches, possibly followed by the empty
    part of a trailing slash. *)
Definition matchRest (ext : string) (file : list string) : bool :=
  match file with
  | [part] => starDotExt ext part
  | [part; EmptyString] => starDotExt ext part
  | _ => false
  end.

(** [matchOne] at the globstar: try the rest of the pattern at every
    position, swallowing parts that do not start with a dot. *)
Fixpoint globstar (ext : string) (file : list string) : bool :=
  match file with
  | [] => false
  | swallowee :: rest =>
      matchRest ext file ||
      (if startsWith swallowee "." then false else globstar ext rest)
  end.

(** The [ext] of a pattern [**/*<ext>]. *)
Definition extOf (pattern : string) : option string :=
  match pattern with
  | String a (String b (String c (String d ext))) =>
      if String.eqb (String a (String b (String c (str d)))) "**/*"
      then Some ext else None
  | _ => None
  end.

(** [minimatch(file, pattern)] for a pattern [**/*<ext>] whose [ext]
    has no glob character.  Other patterns are outside this model and
    never occur in the script; they are answered [false] here. *)
Definition minimatch (file pattern : string) : bool :=
  match extOf pattern with
  | Some ext => globstar ext (slashSplit file)
  | None => false
  end.

End Minimatch.

Module TestFiles.
Import Minimatch.

Definition isTestCaseFile (file : string) : bool :=
  minimatch file "**/*.spec.js" || minimatch file "**/*.test.js"
  || minimatch file "**/*.test.tsx" || minimatch file "**/*.test.jsx"
  || minimatch file "**/*.test.ts".

Definition getTestCaseFiles (files : list string) : list string :=
  filter isTestCaseFile files.

(** The five recognised patterns, as the specification lists them. *)
Definition patterns : list string :=
  [ "**/*.spec.js"; "**/*.test.js"; "**/*.test.tsx"; "**/*.test.jsx";
    "**/*.test.ts" ].

End TestFiles.

(* ================================================================== *)
(** ** Test-Block Extractor: [getTestCasesLineNumbersByFile] *)
(* ================================================================== *)

Module TestBlocks.
Import JS Attribution.

Record Position := mkPos { line : N; column : N }.
Record SourceLocation := mkLoc { loc_start : Position; loc_end : Position }.

(** The syntax tree as the visitor reads it: identifiers, member
    accesses and calls are told apart, every other kind of node only
    has children.  Only an [Identifier] has a [name]. *)
Inductive Node :=
| Identifier (name : string)
| MemberExpression (object property : Node) (computed : bool)
| CallExpression (loc : SourceLocation) (callee : Node)
                 (arguments : list Node)
| OtherNode (children : list Node).

(** [node.name], [undefined] when the node has none. *)
Definition name_of (n : Node) : option string :=
  match n with
  | Identifier name => Some name
  | _ => None
  end.

Definition name_in (names : list string) (n : Node) : bool :=
  match name_of n with
  | Some name => existsb (String.eqb name) names
  | None => false
  end.

(** The condition of the [CallExpression] visitor. *)
Definition isTestCallee (callee : Node) : bool :=
  match callee with
  | Identifier name => String.eqb name "test" || String.eqb name "it"
  | MemberExpression object property _ =>
      name_in ["test"; "it"] object && name_in ["skip"; "only"] property
  | _ => false
  end.

(** The visitor: what one call node adds to [lineNumberRanges]. *)
Definition visitCall (loc : SourceLocation) (callee : Node)
  : list LineRange :=
  if isTestCallee callee
  then [{| start := line (loc_start loc); end_ := line (loc_end loc) |}]
  else [].

(** [traverse(ast, { CallExpression })]: depth first, a node before
    its children, the callee before the arguments. *)
Fixpoint traverse (n : Node) : list LineRange :=
  match n with
  | Identifier _ => []
  | MemberExpression object property _ =>
      traverse object ++ traverse property
  | CallExpression loc callee arguments =>
      visitCall loc callee ++ traverse callee ++ flat_map traverse arguments
  | OtherNode children => flat_map traverse children
  end.

(** The call nodes of a tree, in the order [traverse] meets them. *)
Fixpoint calls (n : Node) : list (SourceLocation * Node) :=
  match n with
  | Identifier _ => []
  | MemberExpression object property _ => calls object ++ calls property
  | CallExpression loc callee arguments =>
      (loc, callee) :: calls callee ++ flat_map calls arguments
  | OtherNode children => flat_map calls children
  end.

(** [Inside x n]: the node [x] is [n] or lies somewhere below it. *)
Inductive Inside (x : Node) : Node -> Prop :=
| Inside_here : Inside x x
| Inside_object object property computed :
  Inside x object -> Inside x (MemberExpression object property computed)
| Inside_property object property computed :
  Inside x property -> Inside x (MemberExpression object property computed)
| Inside_callee loc callee arguments :
  Inside x callee -> Inside x (CallExpression loc callee arguments)
| Inside_argument loc callee arguments a :
  In a arguments -> Inside x a ->
  Inside x (CallExpression loc callee arguments)
| Inside_child children a :
  In a children -> Inside x a -> Inside x (OtherNode children).

(** The range the visitor pushes for a call at [loc]. *)
Definition rangeOf (loc : SourceLocation) : LineRange :=
mkRange (line (loc_start loc)) (line (loc_end loc)).

(** A call either returns or throws. *)
Inductive outcome (A : Type) :=
| Returned (a : A)
| Thrown.
Arguments Returned {A} a.
Arguments Thrown {A}.

Section WithFiles.
  (** [fs.existsSync], [fs.readFileSync(path, 'utf8')] (which throws
      on a directory or an unreadable file) and [babelParser.parse]
      (which throws on a syntax error). *)
Variable existsSync : string -> bool.
Variable readFileSync : string -> option string.
Variable parse : string -> option Node.

Definition getTestCasesLineNumbersByFile (filePath : string)
    : outcome (list LineRange) :=
    if negb (existsSync filePath) then Returned []
    else
      match readFileSync filePath with
      | None => Thrown
      | Some code =>
          match parse code with
          | None => Thrown
          | Some ast => Returned (traverse ast)
          end
      end.
End WithFiles.

(** A small module: [describe('s', () => { it.only('a', f); g(test) })]
  with the calls at lines 1-5, 2-3 and 4-4. *)
Definition sampleLoc (a b : N) : SourceLocation :=
mkLoc (mkPos a 0) (mkPos b 1).

Definition sampleAst : Node :=
OtherNode
  [CallExpression (sampleLoc 1 5) (Identifier "describe")
     [OtherNode [];
      OtherNode
        [CallExpression (sampleLoc 2 3)
           (MemberExpression (Identifier "it") (Identifier "only") false)
           [OtherNode []; Identifier "f"];
         CallExpression (sampleLoc 4 4) (Identifier "g")
           [Identifier "test"]]]].

End TestBlocks.

(* ================================================================== *)
(** ** Queries to the version-control tool *)
(* ================================================================== *)

Module Shell.
Import JS.

(** A computation that runs commands: its value and the commands it
    ran, oldest first. *)
Definition Shell (A : Type) : Type := (A * list string)%type.

Definition ret {A} (a : A) : Shell A := (a, []).

Definition bind {A B} (m : Shell A) (f : A -> Shell B) : Shell B :=
  let (b, later) := f (fst m) in (b, snd m ++ later).

Definition value {A} (m : Shell A) : A := fst m.
Definition issued {A} (m : Shell A) : list string := snd m.

(** [list.forEach(x => ...)] whose body updates one local variable. *)
Fixpoint forEach {A S} (l : list A) (body : S -> A -> Shell S) (s : S)
  : Shell S :=
  match l with
  | [] => ret s
  | a :: l' => bind (body s a) (forEach l' body)
  end.

(** A text in double quotes, as the command templates have it. *)
Definition quoted (s : string) : string := str DQUOTE ++ s ++ str DQUOTE.

End Shell.

Declare Scope shell_scope.
Delimit Scope shell_scope with shell.
Notation "x <- m ;; k" := (Shell.bind m (fun x => k))
(at level 61, m at next level, right associativity) : shell_scope.

(* ================================================================== *)
(** ** The command line, as the shell reads it *)
(* ================================================================== *)

Module CommandLine.
Import JS.

(** [execSync] hands the text of a command to [/bin/sh -c], and the
    shell cuts it into the words the program receives.  The shell is
    not part of the script.  Of its rules these are embedded: blanks
    separate words; a pair of double quotes makes what it encloses part
    of a word; [#] where a word would begin starts a comment that runs
    to the end of the line.  Any other character with a meaning to the
    shell, quoted or not, gives [None]: a command holding one is not
    covered. *)











End CommandLine.

(* ================================================================== *)
(** ** Commit Collector, Change-Set Resolver, Line-Count Aggregator *)
(* ================================================================== *)

Module Git.
Import JS Shell DiffParser.
Local Open Scope shell_scope.

Section WithTool.
(** [execSync(command, { cwd, encoding })]: the text the tool prints,
    or [None] when the call throws. *)
Variable execSync : string -> string -> option string.

(** [process.env.AUTHOR] and the two date constants of the script. *)
Variable AUTHOR : string.
Variable SINCE_DATE : string.
Variable UNTIL_DATE : string.

Definition runCommand (command cwd : string) : Shell string :=
  (match execSync command cwd with
   | Some result => if truthy result then trim result else ""
   | None => ""
   end, [command]).

(** [out.split('\n').filter(hash => hash.trim() !== '')] *)
Definition nonBlankLines (out : string) : list string :=
  filter (fun hash => truthy (trim hash)) (split LF out).

(** [lines.forEach(hash => allCommits.add(hash))] *)
Definition addAll (set : list string) (items : list string)
  : list string :=
  fold_left add items set.

Definition nameParts : list string := split SPACE AUTHOR.

Definition firstNamePart : string := hd "" nameParts.
Definition lastNamePart : string := last nameParts "".

Definition window : string :=
  " --since=" ++ quoted (SINCE_DATE ++ "T00:00:00") ++
  " --until=" ++ quoted (UNTIL_DATE ++ "T23:59:59").

Definition authorsCommand : string :=
  "git log --pretty=format:" ++ quoted "%an" ++ " | sort | uniq".

Definition dateRangeCommand : string :=
  "git log --since=" ++ quoted SINCE_DATE ++
  " --until=" ++ quoted UNTIL_DATE ++
  " --pretty=format:" ++ quoted "%H %an %ad" ++ " --date=short".

Definition recentAuthorCommand : string :=
  "git log --author=" ++ quoted AUTHOR ++
  " --max-count=5 --pretty=format:" ++ quoted "%H %ad" ++
  " --date=short".

Definition logCommand : string :=
  "git log --author=" ++ quoted AUTHOR ++ window ++
  " --pretty=format:" ++ quoted "%H".

Definition reversedAuthor : string :=
  lastNamePart ++ ", " ++ join " " (removelast nameParts).

Definition reversedCommand : string :=
  "git log --author=" ++ quoted reversedAuthor ++ window ++
  " --pretty=format:" ++ quoted "%H".

Definition partialAuthorCommand : string :=
  "git log --author=" ++ quoted firstNamePart ++ window ++
  " --pretty=format:" ++ quoted "%H %an".

(** The test of Method 3 on one line [hash author name...]. *)
Definition hasBothNames (authorName : string) : bool :=
  includes (toLowerCase authorName) (toLowerCase firstNamePart)
  && includes (toLowerCase authorName) (toLowerCase lastNamePart).

Definition addPartial (set : list string) (line : string)
  : list string :=
  let parts := split SPACE line in
  let hash := hd "" parts in
  let authorName := join " " (tl parts) in
  if hasBothNames authorName then add set hash else set.

Definition getCommits (repoPath : string) : Shell (list string) :=
  _authors <- runCommand authorsCommand repoPath ;;
  _dateRangeOutput <- runCommand dateRangeCommand repoPath ;;
  _recentAuthorOutput <- runCommand recentAuthorCommand repoPath ;;
  let allCommits : list string := [] in
  (* Method 1 *)
  stdout <- runCommand logCommand repoPath ;;
  let allCommits :=
    if truthy stdout then addAll allCommits (nonBlankLines stdout)
    else allCommits in
  (* Method 2 *)
  allCommits <-
    (if (2 <=? List.length nameParts)%nat then
       reversedOutput <- runCommand reversedCommand repoPath ;;
       ret (if truthy reversedOutput
            then addAll allCommits (nonBlankLines reversedOutput)
            else allCommits)
     else ret allCommits) ;;
  (* Method 3 *)
  partialOutput <- runCommand partialAuthorCommand repoPath ;;
  ret (if truthy partialOutput
       then fold_left addPartial (nonBlankLines partialOutput) allCommits
       else allCommits).

Definition showCommand (commit : string) : string :=
  "git show --pretty=" ++ quoted "" ++ " --name-only " ++ commit.

(** The body of the inner [forEach] of [getListOfFiles]. *)
Definition addFile (files : list string) (file : string) : list string :=
  let trimmedFile := trim file in
  if truthy trimmedFile then add files trimmedFile else files.

Definition getListOfFiles (commits : list string) (repoPath : string)
  : Shell (list string) :=
  forEach commits (fun files commit =>
    stdout <- runCommand (showCommand commit) repoPath ;;
    ret (if truthy stdout
         then fold_left addFile (split LF stdout) files
         else files)) [].

Definition diffCommand (filePath commit : string) : string :=
  "git diff -U0 " ++ commit ++ "^ " ++ commit ++ " -- " ++ quoted filePath.

Definition getTestCasesUpdatedLineNumbersByFile
    (filePath : string) (commits : list string) (repoPath : string)
  : Shell (list N) :=
  forEach commits (fun updatedLineNumbers commit =>
    diffOutput <- runCommand (diffCommand filePath commit) repoPath ;;
    ret (if truthy diffOutput
         then updatedLineNumbers ++ parseDiff diffOutput
         else updatedLineNumbers)) [].

Definition numstatCommand (commit : string) : string :=
  "git show " ++ commit ++ " --numstat".

(** [.map(line => line.split('\t')[0])] *)
Definition addedColumn (line : string) : string :=
  hd "" (split TAB line).

(** [stdout.split('\n').map(...).filter(...).reduce(...)] *)
Definition addedLines (stdout : string) : N :=
  fold_left (fun sum val => addDouble sum (parseInt val))
    (filter isDigitRun (map addedColumn (split LF stdout))) 0%N.

Definition getTotalLinesByAuthor (commits : list string)
    (repoPath : string) : Shell N :=
  forEach commits (fun totalLines commit =>
    stdout <- runCommand (numstatCommand commit) repoPath ;;
    ret (addDouble totalLines (addedLines stdout))) 0%N.

(** *** The same results, as the specification describes them *)

(** The three matching strategies of the Commit Collector. *)
Definition hashOf (line : string) : string := hd "" (split SPACE line).
Definition authorOf (line : string) : string :=
  join " " (tl (split SPACE line)).

Definition exactMatches (repoPath : string) : list string :=
  nonBlankLines (value (runCommand logCommand repoPath)).

Definition reversedMatches (repoPath : string) : list string :=
  if (2 <=? List.length nameParts)%nat
  then nonBlankLines (value (runCommand reversedCommand repoPath))
  else [].

Definition partialMatches (repoPath : string) : list string :=
  map hashOf
    (filter (fun line => hasBothNames (authorOf line))
       (nonBlankLines (value (runCommand partialAuthorCommand repoPath)))).

(** The queries whose answers the three strategies read. *)
Definition strategyCommands : list string :=
  logCommand ::
  (if (2 <=? List.length nameParts)%nat then [reversedCommand] else [])
  ++ [partialAuthorCommand].

(** What one line of a numstat summary counts for: the integer in its
    added-count column when that is a non-empty run of digits, and
    nothing otherwise. *)
Definition contribution (line : string) : N :=
  if isDigitRun (addedColumn line) then decimalValue (addedColumn line)
  else 0%N.

Definition sumN (l : list N) : N := fold_right N.add 0%N l.

Definition numstatLines (commit repoPath : string) : list string :=
  split LF (value (runCommand (numstatCommand commit) repoPath)).

Definition nameOnlyLines (commit repoPath : string) : list string :=
  split LF (value (runCommand (showCommand commit) repoPath)).

(** One round of the loop of [getListOfFiles]. *)
Definition filesStep (repoPath : string) (files : list string)
(commit : string) : list string :=
  fold_left addFile (nameOnlyLines commit repoPath) files.

End WithTool.

(** A query carries the full-day window when its text has
[--since="<since>T00:00:00"] and [--until="<until>T23:59:59"]. *)
Definition fullDayWindow (since until command : string) : bool :=
includes command ("--since=" ++ quoted (since ++ "T00:00:00"))
&& includes command ("--until=" ++ quoted (until ++ "T23:59:59")).

(** A tool for examples: a history in which one author is recorded as
[Doe, Jane], with commits [abc] and [def], and another as
[Janet Smith], with commit [xyz]. *)
Definition sampleTool (command cwd : string) : option string :=
if includes command ("--author=" ++ quoted "Doe, Jane")
then Some ("abc" ++ str LF ++ "def" ++ str LF)%string
else if includes command ("--author=" ++ quoted "Jane" ++ " ")
        && includes command "%H %an"
then Some ("abc Doe, Jane" ++ str LF ++ "xyz Janet Smith" ++ str LF
           ++ "def Doe, Jane")%string
else if includes command "--name-only abc"
then Some ("src/a.test.js" ++ str LF ++ " " ++ str LF ++ "src/b.js"
           ++ str LF)%string
else if includes command "--name-only def"
then Some ("src/b.js" ++ str LF ++ "README.md")%string
else None.

(** A tool with a longer answer to the first-name query: beside the
commits of [Doe, Jane] it lists [xyz] of [Janet Smith], who has the
first name in hers but not the last, [q1] of [JANE DOE] in capitals,
and [r2] of [John Doe], who has the last name but not the first. *)
Definition historyTool (command cwd : string) : option string :=
if includes command ("--author=" ++ quoted "Doe, Jane")
then Some ("abc" ++ str LF ++ "def" ++ str LF)%string
else if includes command ("--author=" ++ quoted "Jane" ++ " ")
        && includes command "%H %an"
then Some ("abc Doe, Jane" ++ str LF ++ "xyz Janet Smith" ++ str LF
           ++ "q1 JANE DOE" ++ str LF ++ "r2 John Doe" ++ str LF
           ++ "def Doe, Jane")%string
else None.

(** The first of the two copies of the script has simpler versions of
  two of the functions above; the other functions are the same. *)
Module Rev1.
Section WithTool.
Variable execSync : string -> string -> option string.
Variable AUTHOR : string.
Variable SINCE_DATE : string.
Variable UNTIL_DATE : string.

Definition logCommand : string :=
    "git log --author=" ++ quoted AUTHOR ++
    " --since=" ++ quoted SINCE_DATE ++
    " --until=" ++ quoted UNTIL_DATE ++
    " --pretty=format:" ++ quoted "%H".

Definition getCommits (repoPath : string) : Shell (list string) :=
    stdout <- runCommand execSync logCommand repoPath ;;
    ret (if truthy stdout then split LF stdout else []).

Definition getListOfFiles (commits : list string) (repoPath : string)
    : Shell (list string) :=
    forEach commits (fun files commit =>
      stdout <- runCommand execSync (showCommand commit) repoPath ;;
      ret (fold_left add (split LF stdout) files)) [].

(** The first copy parses every answer, the empty one included. *)
Definition getTestCasesUpdatedLineNumbersByFile
    (filePath : string) (commits : list string) (repoPath : string)
  : Shell (list N) :=
  forEach commits (fun updatedLineNumbers commit =>
    diffOutput <- runCommand execSync (diffCommand filePath commit)
                             repoPath ;;
    ret (updatedLineNumbers ++ parseDiff diffOutput)) [].
End WithTool.
End Rev1.

End Git.

(* ================================================================== *)
(** ** The whole run: [validateGitRepo] and [main] *)
(* ================================================================== *)

Module Pipeline.
Import JS Shell DiffParser Attribution TestFiles TestBlocks Git.
Local Open Scope shell_scope.

(** How a run ends: [process.exit(code)], one of the two early returns,
    the two totals printed at the end, or an exception that nothing
    catches. *)
Inductive report :=
| Exited (code : N)
| NoCommits
| NoTestFiles
| Totals (totalLines : N) (updatedTestCases : N)
| Crashed.

(** [!value] for an environment variable, which is [undefined] when it
    is not set. *)
Definition unset (value : option string) : bool :=
  match value with
  | Some text => negb (truthy text)
  | None => true
  end.

(** [`${value}`] *)
Definition interpolate (value : option string) : string :=
  match value with
  | Some text => text
  | None => "undefined"
  end.

Section WithWorld.
Variable execSync : string -> string -> option string.
Variable existsSync : string -> bool.
Variable readFileSync : string -> option string.
Variable parse : string -> option Node.
(** [path.join] of two texts. *)
Variable pathJoin : string -> string -> string.
Variable SINCE_DATE : string.
Variable UNTIL_DATE : string.

(** [validateGitRepo]: [true] when the run goes on, [false] when it
    ends with [process.exit(1)]. *)
Definition validateGitRepo (repoPath : string) : bool :=
  existsSync (pathJoin repoPath ".git").

(** The body of [testCaseFiles.forEach] in the second copy.  Once a
    file has thrown, nothing more runs. *)
Definition fileStep (repoPath : string) (commits : list string)
    (acc : outcome (list LineRange)) (file : string)
  : Shell (outcome (list LineRange)) :=
  match acc with
  | Thrown => ret Thrown
  | Returned updatedTestCases =>
      let filePath := pathJoin repoPath file in
      match getTestCasesLineNumbersByFile existsSync readFileSync parse
              filePath with
      | Thrown => ret Thrown
      | Returned testCases =>
          updatedLines <-
            getTestCasesUpdatedLineNumbersByFile execSync file commits
              repoPath ;;
          ret (Returned (updatedTestCases
                         ++ getUpdatedTestCases testCases updatedLines))
      end
  end.

(** [main] of the second copy. *)
Definition main (REPO_PATH AUTHOR : option string) : Shell report :=
  if unset REPO_PATH || unset AUTHOR then ret (Exited 1)
  else
    let repoPath := interpolate REPO_PATH in
    let author := interpolate AUTHOR in
    if negb (validateGitRepo repoPath) then ret (Exited 1)
    else
      commits <- getCommits execSync author SINCE_DATE UNTIL_DATE repoPath ;;
      if (List.length commits =? 0)%nat then ret NoCommits
      else
        files <- getListOfFiles execSync commits repoPath ;;
        let testCaseFiles := getTestCaseFiles files in
        if (List.length testCaseFiles =? 0)%nat then ret NoTestFiles
        else
          updated <- forEach testCaseFiles (fileStep repoPath commits)
                       (Returned []) ;;
          match updated with
          | Thrown => ret Crashed
          | Returned updatedTestCases =>
              totalLines <- getTotalLinesByAuthor execSync commits repoPath ;;
              ret (Totals totalLines
                     (N.of_nat (List.length updatedTestCases)))
          end.

(** The body of [testCaseFiles.forEach] in the first copy, which names
    the file to the tool by its joined path. *)
Definition fileStep1 (repoPath : string) (commits : list string)
    (acc : outcome (list LineRange)) (file : string)
  : Shell (outcome (list LineRange)) :=
  match acc with
  | Thrown => ret Thrown
  | Returned updatedTestCases =>
      let filePath := pathJoin repoPath file in
      match getTestCasesLineNumbersByFile existsSync readFileSync parse
              filePath with
      | Thrown => ret Thrown
      | Returned testCases =>
          updatedLines <-
            Rev1.getTestCasesUpdatedLineNumbersByFile execSync filePath
              commits repoPath ;;
          ret (Returned (updatedTestCases
                         ++ getUpdatedTestCases testCases updatedLines))
      end
  end.

(** [main] of the first copy.  It does not look at the two variables
    first: [path.join] throws when the repository path is not set, and
    a name that is not set reads [undefined] in the query. *)
Definition main1 (REPO_PATH AUTHOR : option string) : Shell report :=
  match REPO_PATH with
  | None => ret Crashed
  | Some repoPath =>
      let author := interpolate AUTHOR in
      if negb (validateGitRepo repoPath) then ret (Exited 1)
      else
        commits <- Rev1.getCommits execSync author SINCE_DATE UNTIL_DATE
                     repoPath ;;
        if (List.length commits =? 0)%nat then ret NoCommits
        else
          files <- Rev1.getListOfFiles execSync commits repoPath ;;
          let testCaseFiles := getTestCaseFiles files in
          if (List.length testCaseFiles =? 0)%nat then ret NoTestFiles
          else
            updated <- forEach testCaseFiles (fileStep1 repoPath commits)
                         (Returned []) ;;
            match updated with
            | Thrown => ret Crashed
            | Returned updatedTestCases =>
                totalLines <-
                  getTotalLinesByAuthor execSync commits repoPath ;;
                ret (Totals totalLines
                       (N.of_nat (List.length updatedTestCases)))
            end
  end.

End WithWorld.

(** A world for examples: the repository [/repo] of [sampleTool], in
    which [src/a.test.js] parses to [sampleAst]. *)
Definition sampleJoin (a b : string) : string := a ++ "/" ++ b.

Definition sampleExists (path : string) : bool :=
  String.eqb path "/repo/.git" || String.eqb path "/repo/src/a.test.js".

Definition sampleRead (path : string) : option string :=
  if String.eqb path "/repo/src/a.test.js" then Some "src" else None.

Definition sampleParse (code : string) : option Node :=
  if String.eqb code "src" then Some sampleAst else None.

(** The same world with a test file that does not parse. *)
Definition brokenParse (code : string) : option Node := None.

(** [sampleTool] with answers for the diff of [src/a.test.js] in commit
    [def] and for the summary of commit [abc]. *)
Definition sampleTool2 (command cwd : string) : option string :=
  if includes command "git diff" then
    if includes command "def^ def" && includes command "src/a.test.js"
    then Some ("@@ -1,0 +2,2 @@" ++ str LF ++ "+x" ++ str LF ++ "+y")%string
    else None
  else if includes command "--numstat" then
    if includes command "abc"
    then Some ("3" ++ str TAB ++ "0" ++ str TAB ++ "src/a.test.js")%string
    else None
  else sampleTool command cwd.

(** The same, with commit [abc] recorded under the name [Jane Doe]. *)
Definition sampleTool1 (command cwd : string) : option string :=
  if includes command ("--author=" ++ quoted "Jane Doe") then Some "abc"
  else sampleTool2 command cwd.

End Pipeline.

(* ================================================================== *)
(** * Properties *)
(* ================================================================== *)

(** ** Strings *)

Module JSFacts.
Import JS.

Lemma startsWith_app (p s : string) : startsWith (p ++ s) p = true.
Proof.
  unfold startsWith. induction p as [|c p IH]; simpl.
  - destruct s; reflexivity.
  - destruct (ascii_dec c c) as [_|ne]; [exact IH | now elim ne].
Qed.

Lemma startsWith_inv (p s : string) :
  startsWith s p = true -> exists r, s = (p ++ r)%string.
Proof.
  unfold startsWith. revert s.
  induction p as [|c p IH]; intros s H; simpl in *.
  - now exists s.
  - destruct s as [|a s]; [discriminate|]. simpl in H.
    destruct (ascii_dec c a) as [->|]; [|discriminate].
    destruct (IH s H) as [r ->]. now exists r.
Qed.

Lemma includes_startsWith (s sub : string) :
  startsWith s sub = true -> includes s sub = true.
Proof.
  intros H. destruct s; unfold includes; fold includes; rewrite H;
    reflexivity.
Qed.

Lemma includes_here (p s : string) : includes (p ++ s) p = true.
Proof. apply includes_startsWith, startsWith_app. Qed.

Lemma includes_later (c : ascii) (s sub : string) :
  includes s sub = true -> includes (String c s) sub = true.
Proof.
  intros H. unfold includes; fold includes. rewrite H. apply orb_true_r.
Qed.

Lemma includes_app (pre s sub : string) :
  includes s sub = true -> includes (pre ++ s) sub = true.
Proof.
  intros H. induction pre as [|c pre IH]; simpl append.
  - exact H.
  - now apply includes_later.
Qed.

Lemma app_assoc_s (a b c : string) : ((a ++ b) ++ c = a ++ (b ++ c))%string.
Proof. induction a as [|x a IH]; simpl; [reflexivity | now rewrite IH]. Qed.

(** A text occurs in whatever is built around it. *)
Lemma includes_mid (pre mid post : string) :
  includes (pre ++ mid ++ post) mid = true.
Proof. apply includes_app, includes_here. Qed.

Lemma split_nonempty (c : ascii) (s : string) : split c s <> [].
Proof.
  induction s as [|a s IH]; simpl; [discriminate|].
  destruct (Ascii.eqb a c); [discriminate|].
  destruct (split c s); discriminate.
Qed.

Lemma truthy_true (s : string) : truthy s = true <-> s <> "".
Proof. destruct s; simpl; split; congruence. Qed.

(** *** The [Set] *)

Lemma has_spec (set : list string) (x : string) :
  has set x = true <-> In x set.
Proof.
  unfold has. rewrite existsb_exists. split.
  - intros (y & Hy & E). apply String.eqb_eq in E. now subst.
  - intros H. exists x. split; [assumption | apply String.eqb_refl].
Qed.

Lemma in_add (set : list string) (x y : string) :
  In y (add set x) <-> In y set \/ y = x.
Proof.
  unfold add. destruct (has set x) eqn:E.
  - apply has_spec in E. split; [tauto|]. intros [H| ->]; assumption.
  - rewrite in_app_iff. simpl. intuition.
Qed.

Lemma NoDup_snoc {A} (l : list A) (x : A) :
  NoDup l -> ~ In x l -> NoDup (l ++ [x]).
Proof.
  induction 1 as [|a l Ha Hl IH]; intros Hx; simpl.
  - constructor; [tauto | constructor].
  - constructor.
    + rewrite in_app_iff. simpl. intros [H|[<-|[]]]; [tauto|].
      apply Hx. now left.
    + apply IH. intros H. apply Hx. now right.
Qed.

Lemma NoDup_add (set : list string) (x : string) :
  NoDup set -> NoDup (add set x).
Proof.
  intros H. unfold add. destruct (has set x) eqn:E; [assumption|].
  apply NoDup_snoc; [assumption|]. rewrite <- has_spec. congruence.
Qed.

(** *** [trim] *)

Lemma trimStart_cases (s : string) :
  trimStart s = "" \/
  exists c t, trimStart s = String c t /\ isWhiteSpace c = false.
Proof.
  induction s as [|c s IH]; simpl; [now left|].
  destruct (isWhiteSpace c) eqn:E; [exact IH|].
  right. now exists c, s.
Qed.

Lemma trimEnd_head (c : ascii) (t : string) :
  isWhiteSpace c = false -> exists u, trimEnd (String c t) = String c u.
Proof.
  intros H. simpl. destruct (trimEnd t) as [|a u].
  - rewrite H. now exists "".
  - now exists (String a u).
Qed.

Lemma trimEnd_idem (s : string) : trimEnd (trimEnd s) = trimEnd s.
Proof.
  induction s as [|c s IH]; simpl; [reflexivity|].
  destruct (trimEnd s) as [|a u] eqn:E.
  - destruct (isWhiteSpace c) eqn:Ec; simpl; [reflexivity|].
    now rewrite Ec.
  - change (trimEnd (String c (String a u))) with
      (match trimEnd (String a u) with
       | "" => if isWhiteSpace c then "" else str c
       | t => String c t
       end).
    now rewrite IH.
Qed.

Lemma trim_idem (s : string) : trim (trim s) = trim s.
Proof.
  unfold trim. destruct (trimStart_cases s) as [E|(c & t & E & Hc)];
    rewrite E; [reflexivity|].
  destruct (trimEnd_head c t Hc) as [u Eu]. rewrite Eu.
  simpl trimStart. rewrite Hc, <- Eu. apply trimEnd_idem.
Qed.

Lemma trim_whitespaceOnly (s : string) :
  whitespaceOnly s = true -> trim s = "".
Proof.
  unfold trim. induction s as [|c s IH]; simpl; [reflexivity|].
  intros H. apply andb_true_iff in H as [Hc Hs]. rewrite Hc. now apply IH.
Qed.

(** What [trim] returns, when not empty, is trimmed and is not made of
    white space. *)
Lemma trim_result (line f : string) :
  trim line = f -> f <> "" ->
  trim f = f /\ whitespaceOnly f = false.
Proof.
  intros <- Hne. split; [apply trim_idem|].
  destruct (whitespaceOnly (trim line)) eqn:E; [|reflexivity].
  apply trim_whitespaceOnly in E. rewrite trim_idem in E. contradiction.
Qed.

(** *** Numbers *)

(** Integers up to 2^53 are doubles: rounding leaves them alone. *)
Lemma roundDouble_exact (n : N) :
  (n <= MAX_SAFE)%N -> roundDouble n = n.
Proof.
  intros H. unfold roundDouble.
  destruct (n <? MAX_SAFE)%N eqn:E; [reflexivity|].
  apply N.ltb_ge in E.
  assert (n = MAX_SAFE) as -> by lia.
  vm_compute. reflexivity.
Qed.

Lemma addDouble_exact (a b : N) :
  (a + b <= MAX_SAFE)%N -> addDouble a b = (a + b)%N.
Proof. apply roundDouble_exact. Qed.

Lemma increment_exact (x : N) :
  (x < MAX_SAFE)%N -> increment x = (x + 1)%N.
Proof. intros H. apply addDouble_exact. lia. Qed.

Lemma parseInt_exact (s : string) :
  (decimalValue s <= MAX_SAFE)%N -> parseInt s = decimalValue s.
Proof. apply roundDouble_exact. Qed.

(** Beyond 2^53 the doubles thin out.  An integer half-way between two
    doubles goes to the one with the even significand.  The largest
    finite double is (2^53 - 1) * 2^971; from 2^1024 - 2^970 on the
    nearest double is [Infinity], which no addition leaves. *)
Lemma roundDouble_examples :
  roundDouble 9007199254740993 = 9007199254740992%N
  /\ roundDouble 9007199254740994 = 9007199254740994%N
  /\ roundDouble 9007199254740995 = 9007199254740996%N
  /\ increment MAX_SAFE = MAX_SAFE
  /\ roundDouble (10 ^ 22) = (10 ^ 22)%N
  /\ roundDouble (10 ^ 23) = 99999999999999991611392%N
  /\ roundDouble (2 ^ 1024 - 2 ^ 970 - 1) = ((2 ^ 53 - 1) * 2 ^ 971)%N
  /\ roundDouble (2 ^ 1024 - 2 ^ 970) = Infinity
  /\ increment Infinity = Infinity
  /\ addDouble Infinity 5 = Infinity.
Proof. vm_compute. repeat split; reflexivity. Qed.

(** Positional notation: the integer a digit run denotes. *)
Lemma decimalValue_snoc (s : string) (c : ascii) :
  decimalValue (s ++ str c) = (decimalValue s * 10 + digitValue c)%N.
Proof.
  unfold decimalValue.
  assert (E : list_ascii_of_string (s ++ str c)
              = list_ascii_of_string s ++ [c]).
  { induction s as [|a s IH]; simpl; [reflexivity | now rewrite IH]. }
  rewrite E, fold_left_app. reflexivity.
Qed.

End JSFacts.

(** ** Diff Parser *)

Module DiffParserFacts.
Import JS DiffParser JSFacts.

Lemma lit_app {A} (p s : string) (k : string -> option A) :
  lit p (p ++ s) k = k s.
Proof.
  induction p as [|c p IH]; simpl; [reflexivity|].
  now rewrite Ascii.eqb_refl.
Qed.

Lemma digits_stop {A} (r : string) (k : string -> string -> option A) :
  stops r = true -> digits r k = None.
Proof.
  destruct r as [|c r]; simpl; [reflexivity|].
  intros H. now destruct (isDigit c).
Qed.

(** A greedy digit run takes the whole run when the rest of the pattern
    accepts that. *)
Lemma digits_run {A} (ds r : string) :
  forall (k : string -> string -> option A) (x : A),
    isDigitRun ds = true -> stops r = true ->
    k ds r = Some x -> digits (ds ++ r) k = Some x.
Proof.
  induction ds as [|c ds IH]; intros k x Hds Hr Hk; [discriminate|].
  unfold isDigitRun in Hds. simpl in Hds.
  apply andb_true_iff in Hds as [Hc Hds].
  simpl. rewrite Hc.
  destruct ds as [|c' ds'].
  - simpl. rewrite (digits_stop r _ Hr). exact Hk.
  - rewrite (IH (fun d r0 => k (String c d) r0) x); auto.
Qed.

Lemma optCount_some {A} (n : option string) (r : string)
    (k : string -> option A) (x : A) :
  countOk n = true -> startsWith r " " = true ->
  k r = Some x -> optCount (count n ++ r) k = Some x.
Proof.
  intros Hn Hr Hk.
  destruct (startsWith_inv _ _ Hr) as [r' ->].
  unfold optCount. destruct n as [b|]; unfold count.
  - rewrite app_assoc_s, lit_app.
    now rewrite (digits_run b (" " ++ r') (fun _ r0 => k r0) x).
  - simpl. exact Hk.
Qed.

Lemma hunkAt_header (a : string) (b : option string) (c : string)
    (d : option string) (tail : string) :
  isDigitRun a = true -> countOk b = true ->
  isDigitRun c = true -> countOk d = true ->
  hunkAt (hunkHeader a b c d tail) = Some c.
Proof.
  intros Ha Hb Hc Hd. unfold hunkAt, hunkHeader.
  assert (Hstop : forall n rest, stops (count n ++ String " " rest) = true).
  { intros [n|] rest; reflexivity. }
  rewrite lit_app.
  apply digits_run; [assumption | apply Hstop |].
  apply optCount_some; [assumption | reflexivity |].
  rewrite lit_app.
  apply digits_run; [assumption | apply Hstop |].
  apply optCount_some; [assumption | reflexivity |].
  now rewrite lit_app.
Qed.

Lemma hunkMatch_here (s c : string) :
  hunkAt s = Some c -> hunkMatch s = Some c.
Proof.
  intros H. destruct s; unfold hunkMatch; fold hunkMatch; now rewrite H.
Qed.

Lemma hunkHeader_starts (a : string) (b : option string) (c : string)
    (d : option string) (tail : string) :
  startsWith (hunkHeader a b c d tail) "@@" = true.
Proof. reflexivity. Qed.

Lemma hunkMatch_header (a : string) (b : option string) (c : string)
    (d : option string) (tail : string) :
  isDigitRun a = true -> countOk b = true ->
  isDigitRun c = true -> countOk d = true ->
  hunkMatch (hunkHeader a b c d tail) = Some c.
Proof.
  intros Ha Hb Hc Hd. apply hunkMatch_here. now apply hunkAt_header.
Qed.

(** *** The per-line step, case by case *)

Lemma parseLine_reset (st : state) (line c : string) :
  startsWith line "@@" = true -> hunkMatch line = Some c ->
  parseLine st line = mkState (parseInt c) (lineNumbers st).
Proof. intros H1 H2. unfold parseLine. now rewrite H1, H2. Qed.

Lemma parseLine_malformed (st : state) (line : string) :
  startsWith line "@@" = true -> hunkMatch line = None ->
  parseLine st line = st.
Proof. intros H1 H2. unfold parseLine. now rewrite H1, H2. Qed.

Lemma addition_not_header (line : string) :
  isAddition line = true -> startsWith line "@@" = false.
Proof.
  unfold isAddition. intros H. apply andb_true_iff in H as [H _].
  destruct (startsWith_inv _ _ H) as [r ->]. reflexivity.
Qed.

Lemma parseLine_addition (st : state) (line : string) :
  isAddition line = true ->
  parseLine st line =
    mkState (increment (startLine st)) (lineNumbers st ++ [startLine st]).
Proof.
  intros H. unfold parseLine. rewrite (addition_not_header _ H).
  unfold isAddition in H. now rewrite H.
Qed.

Lemma parseLine_other (st : state) (line : string) :
  startsWith line "@@" = false -> isAddition line = false ->
  startsWith line "\" = false ->
  parseLine st line = mkState (increment (startLine st)) (lineNumbers st).
Proof.
  intros H1 H2 H3. unfold parseLine. unfold isAddition in H2.
  now rewrite H1, H2, H3.
Qed.

Lemma parseLine_backslash (st : state) (line : string) :
  startsWith line "\" = true -> parseLine st line = st.
Proof.
  intros H. unfold parseLine.
  destruct (startsWith_inv _ _ H) as [r ->].
  unfold startsWith. simpl. now destruct r.
Qed.

(** *** Runs of lines *)

Lemma run_app (st : state) (l1 l2 : list string) :
  run st (l1 ++ l2) = run (run st l1) l2.
Proof. apply fold_left_app. Qed.

Lemma run_cons (st : state) (line : string) (lines : list string) :
  run st (line :: lines) = run (parseLine st line) lines.
Proof. reflexivity. Qed.

(** A line only ever appends to what was recorded. *)
Lemma parseLine_extends (st : state) (line : string) :
  exists new, lineNumbers (parseLine st line) = lineNumbers st ++ new.
Proof.
  unfold parseLine.
  destruct (startsWith line "@@").
  - destruct (hunkMatch line); exists []; simpl; now rewrite app_nil_r.
  - destruct (startsWith line "+" && negb (startsWith line "+++")).
    + now exists [startLine st].
    + destruct (negb (startsWith line "\")); exists []; simpl;
        now rewrite app_nil_r.
Qed.

Lemma run_extends (lines : list string) :
  forall st, exists new, lineNumbers (run st lines) = lineNumbers st ++ new.
Proof.
  induction lines as [|line lines IH]; intros st.
  - exists []. simpl. now rewrite app_nil_r.
  - destruct (IH (parseLine st line)) as [new2 E2].
    destruct (parseLine_extends st line) as [new1 E1].
    exists (new1 ++ new2). now rewrite run_cons, E2, E1, app_assoc.
Qed.

(** Away from a reset the cursor moves by one step at most, and by
    exactly that while it is below 2^53. *)
Lemma parseLine_step (st : state) (line : string) :
  resets line = false -> (startLine st < MAX_SAFE)%N ->
  (startLine st <= startLine (parseLine st line) <= startLine st + 1)%N
  /\ (lineNumbers (parseLine st line) = lineNumbers st
      \/ lineNumbers (parseLine st line) = lineNumbers st ++ [startLine st]
         /\ startLine (parseLine st line) = (startLine st + 1)%N).
Proof.
  intros Hline Hst. unfold resets in Hline. unfold parseLine.
  destruct (startsWith line "@@").
  { destruct (hunkMatch line); [discriminate|]. split; [lia | now left]. }
  destruct (startsWith line "+" && negb (startsWith line "+++")).
  { cbn [startLine lineNumbers]. rewrite (increment_exact _ Hst).
    split; [lia | right; now split]. }
  destruct (negb (startsWith line "\")); cbn [startLine lineNumbers].
  - rewrite (increment_exact _ Hst). split; [lia | now left].
  - split; [lia | now left].
Qed.

(** Without a reset in between, and as long as the cursor cannot pass
    2^53, the numbers recorded from a cursor value on are that value or
    larger, and strictly increasing. *)
Lemma run_increasing (lines : list string) :
  forall st,
    Forall (fun line => resets line = false) lines ->
    (startLine st + N.of_nat (List.length lines) <= MAX_SAFE)%N ->
    exists new,
      lineNumbers (run st lines) = lineNumbers st ++ new /\
      Forall (fun n => (startLine st <= n)%N) new /\
      StronglySorted N.lt new.
Proof.
  induction lines as [|line lines IH]; intros st Hall Hbound.
  - exists []. simpl. rewrite app_nil_r. repeat constructor.
  - inversion Hall as [|? ? Hline Hrest]; subst.
    cbn [List.length] in Hbound.
    assert (Hst : (startLine st < MAX_SAFE)%N) by lia.
    destruct (parseLine_step st line Hline Hst) as (Hmove & Hrec).
    destruct (IH (parseLine st line) Hrest) as (new & E & Hge & Hsorted);
      [lia|].
    rewrite run_cons, E. clear E IH Hall Hrest.
    destruct Hrec as [-> | (-> & Hnext)].
    + exists new. split; [reflexivity|]. split; [|assumption].
      eapply Forall_impl; [|exact Hge]. simpl. intros; lia.
    + exists (startLine st :: new). rewrite <- app_assoc.
      split; [reflexivity|]. split.
      * constructor; [lia|].
        eapply Forall_impl; [|exact Hge]. simpl. intros; lia.
      * constructor; [assumption|].
        eapply Forall_impl; [|exact Hge]. simpl. intros; lia.
Qed.

(** The cursor never runs ahead of the largest header number by more
    than the number of lines read.  For a text whose header numbers and
    line count add up to 2^53 at most, every number the script computes
    is therefore the integer itself. *)
Lemma run_cursor_bound (bound : N) (lines : list string) :
  Forall (fun line => forall c, hunkMatch line = Some c ->
                                (decimalValue c <= bound)%N) lines ->
  forall st k,
    (startLine st <= bound + k)%N ->
    (bound + k + N.of_nat (List.length lines) <= MAX_SAFE)%N ->
    (startLine (run st lines)
       <= bound + k + N.of_nat (List.length lines))%N.
Proof.
  induction 1 as [|line lines Hline _ IH]; intros st k Hst Hmax.
  - simpl. lia.
  - rewrite run_cons. cbn [List.length] in Hmax.
    assert (Hstep : (startLine (parseLine st line) <= bound + (k + 1))%N).
    { unfold parseLine.
      destruct (startsWith line "@@").
      - destruct (hunkMatch line) as [c|] eqn:E; simpl; [|lia].
        specialize (Hline c eq_refl).
        rewrite parseInt_exact; lia.
      - destruct (startsWith line "+" && negb (startsWith line "+++"));
          [simpl; rewrite increment_exact; lia|].
        destruct (negb (startsWith line "\")); simpl; [|lia].
        rewrite increment_exact; lia. }
    assert (Hmax' : (bound + (k + 1) + N.of_nat (List.length lines)
                     <= MAX_SAFE)%N) by lia.
    specialize (IH _ _ Hstep Hmax'). simpl List.length. lia.
Qed.

(** C1, as the script has it.  [parseDiff] folds a per-line step over
    the lines of the text, from cursor [0].  The cursor is a JavaScript
    number.  The step resets the cursor to [c] at a hunk header
    [@@ -a[,b] +c[,d] @@], and at any line that begins with [@@] and
    holds such a header, exactly when [c] is 2^53 at most; it leaves the
    state alone at a line that begins with [@@] and holds none; it
    records the cursor and advances it at a line that begins with [+]
    but not [+++]; it advances the cursor without recording at any other
    line that begins with neither [@@] nor a backslash; to advance is to
    add exactly one while the cursor is below 2^53; it leaves the state
    alone at a line that begins with a backslash.  Whatever the size of
    the numbers, a reset gives the double nearest to [c] and an advance
    the double nearest to the cursor plus one, which at 2^53 is 2^53
    again.  The diff [@@ -5,2 +5,3 @@], [ ctx], [+added1], [+added2]
    gives [[6; 7]]. *)
Theorem parseDiff_cursor_algorithm :
  (forall diffOutput,
     parseDiff diffOutput =
       lineNumbers (fold_left parseLine (split LF diffOutput) (mkState 0 [])))
  /\ (forall st a b c d tail,
        isDigitRun a = true -> countOk b = true ->
        isDigitRun c = true -> countOk d = true ->
        (decimalValue c <= MAX_SAFE)%N ->
        parseLine st (hunkHeader a b c d tail) =
          mkState (decimalValue c) (lineNumbers st))
  /\ (forall st line c,
        startsWith line "@@" = true -> hunkMatch line = Some c ->
        (decimalValue c <= MAX_SAFE)%N ->
        parseLine st line = mkState (decimalValue c) (lineNumbers st))
  /\ (forall st line,
        startsWith line "@@" = true -> hunkMatch line = None ->
        parseLine st line = st)
  /\ (forall st line,
        startsWith line "+" = true -> startsWith line "+++" = false ->
        (startLine st < MAX_SAFE)%N ->
        parseLine st line =
          mkState (startLine st + 1) (lineNumbers st ++ [startLine st]))
  /\ (forall st line,
        startsWith line "@@" = false ->
        startsWith line "+" && negb (startsWith line "+++") = false ->
        startsWith line "\" = false ->
        (startLine st < MAX_SAFE)%N ->
        parseLine st line = mkState (startLine st + 1) (lineNumbers st))
  /\ (forall st line,
        startsWith line "\" = true -> parseLine st line = st)
  /\ (forall st line c,
        startsWith line "@@" = true -> hunkMatch line = Some c ->
        parseLine st line =
          mkState (roundDouble (decimalValue c)) (lineNumbers st))
  /\ (forall st line,
        startsWith line "+" = true -> startsWith line "+++" = false ->
        parseLine st line =
          mkState (roundDouble (startLine st + 1))
                  (lineNumbers st ++ [startLine st]))
  /\ (forall st line,
        startsWith line "@@" = false ->
        startsWith line "+" && negb (startsWith line "+++") = false ->
        startsWith line "\" = false ->
        parseLine st line =
          mkState (roundDouble (startLine st + 1)) (lineNumbers st))
  /\ roundDouble (MAX_SAFE + 1) = MAX_SAFE
  /\ parseDiff (unlines ["@@ -5,2 +5,3 @@"; " ctx"; "+added1"; "+added2"])
       = [6; 7]%N.
Proof.
  split; [reflexivity|].
  split.
  { intros st a b c d tail Ha Hb Hc Hd Hmax.
    rewrite <- (parseInt_exact c Hmax). apply parseLine_reset.
    - apply hunkHeader_starts.
    - now apply hunkMatch_header. }
  split.
  { intros st line c H1 H2 Hmax. rewrite <- (parseInt_exact c Hmax).
    now apply parseLine_reset. }
  split; [exact parseLine_malformed|].
  split.
  { intros st line H1 H2 Hmax. rewrite <- (increment_exact _ Hmax).
    apply parseLine_addition. unfold isAddition. now rewrite H1, H2. }
  split.
  { intros st line H1 H2 H3 Hmax. rewrite <- (increment_exact _ Hmax).
    now apply parseLine_other. }
  split; [exact parseLine_backslash|].
  split; [exact parseLine_reset|].
  split.
  { intros st line H1 H2. apply parseLine_addition.
    unfold isAddition. now rewrite H1, H2. }
  split; [exact parseLine_other|].
  split; vm_compute; reflexivity.
Qed.

Lemma parseDiff_cursor_algorithm_witness :
  parseLine (mkState 3 [1%N]) "@@ -5,2 +5,3 @@" = mkState 5 [1%N]
  /\ parseLine (mkState 3 [1%N]) "@@@ -1 +20 @@ f()" = mkState 20 [1%N]
  /\ parseLine (mkState 3 [1%N]) "@@ junk" = mkState 3 [1%N]
  /\ parseLine (mkState 3 [1%N]) "+added1" = mkState 4 [1%N; 3%N]
  /\ parseLine (mkState 3 [1%N]) " ctx" = mkState 4 [1%N]
  /\ parseLine (mkState 3 [1%N]) "\ No newline at end of file"
       = mkState 3 [1%N].
Proof.
  destruct parseDiff_cursor_algorithm
    as (_ & Hheader & Hreset & Hmalformed & Hadd & Hother & Hbackslash & _).
  split.
  { exact (Hheader (mkState 3 [1%N]) "5" (Some "2") "5" (Some "3") ""
             eq_refl eq_refl eq_refl eq_refl
             (proj1 (N.leb_le 5 MAX_SAFE) eq_refl)). }
  split.
  { exact (Hreset (mkState 3 [1%N]) "@@@ -1 +20 @@ f()" "20"
             eq_refl eq_refl
             (proj1 (N.leb_le 20 MAX_SAFE) eq_refl)). }
  split.
  { exact (Hmalformed (mkState 3 [1%N]) "@@ junk" eq_refl eq_refl). }
  split.
  { exact (Hadd (mkState 3 [1%N]) "+added1" eq_refl eq_refl eq_refl). }
  split.
  { exact (Hother (mkState 3 [1%N]) " ctx" eq_refl eq_refl eq_refl eq_refl). }
  exact (Hbackslash (mkState 3 [1%N]) "\ No newline at end of file" eq_refl).
Defined.

(** C1 as worded fails twice.  The line [@@ junk] is no hunk header,
    does not begin with [+] and does not begin with a backslash, so the
    stated algorithm advances the cursor there and records [1] for the
    addition that follows; the script leaves the cursor at [0] and
    records [0].  And after the header [@@ -1 +9007199254740992 @@] the
    stated algorithm records 2^53 and 2^53 + 1 for two additions; the
    script records 2^53 twice, for its cursor is a double, on which
    adding one to 2^53 gives 2^53. *)
Lemma parseDiff_malformed_header_counterexample :
  let diffOutput := unlines ["@@ junk"; "+a"] in
  let large := unlines ["@@ -1 +9007199254740992 @@"; "+a"; "+b"] in
  hunkMatch "@@ junk" = None
  /\ isAddition "@@ junk" = false
  /\ startsWith "@@ junk" "\" = false
  /\ statedParseDiff diffOutput = [1%N]
  /\ parseDiff diffOutput = [0%N]
  /\ parseDiff diffOutput <> statedParseDiff diffOutput
  /\ statedParseDiff large = [9007199254740992; 9007199254740993]%N
  /\ parseDiff large = [9007199254740992; 9007199254740992]%N
  /\ parseDiff large <> statedParseDiff large.
Proof. vm_compute. repeat split; discriminate. Qed.

(** C10, within the range of exact arithmetic.  Take any text and any
    stretch [hunk] of consecutive lines of it in which no line resets the
    cursor (so a stretch between one hunk header and the next, or the
    end), and let the cursor at the start of the stretch plus the number
    of lines of the stretch be 2^53 at most.  What [parseDiff] records
    during that stretch is a strictly increasing sequence, and it is a
    contiguous part of what [parseDiff] returns. *)
Theorem parseDiff_increasing_between_headers
    (diffOutput : string) (before hunk after : list string) :
  split LF diffOutput = before ++ hunk ++ after ->
  Forall (fun line => resets line = false) hunk ->
  (startLine (run init before) + N.of_nat (List.length hunk) <= MAX_SAFE)%N ->
  exists recorded later,
    lineNumbers (run init (before ++ hunk))
      = lineNumbers (run init before) ++ recorded
    /\ parseDiff diffOutput
      = lineNumbers (run init before) ++ recorded ++ later
    /\ StronglySorted N.lt recorded.
Proof.
  intros Hsplit Hhunk Hbound.
  destruct (run_increasing hunk (run init before) Hhunk Hbound)
    as (recorded & E & _ & Hsorted).
  destruct (run_extends after (run init (before ++ hunk))) as [later El].
  exists recorded, later. rewrite run_app. split; [exact E|].
  split; [|exact Hsorted].
  unfold parseDiff. rewrite Hsplit, app_assoc, run_app, El, run_app, E.
  now rewrite app_assoc.
Qed.

Lemma parseDiff_increasing_between_headers_witness :
  exists recorded later,
    lineNumbers (run init (["@@ -5,2 +5,3 @@"] ++ [" ctx"; "+added1"; "+added2"]))
      = lineNumbers (run init ["@@ -5,2 +5,3 @@"]) ++ recorded
    /\ parseDiff (unlines ["@@ -5,2 +5,3 @@"; " ctx"; "+added1"; "+added2";
                           "@@ -9 +2 @@"; "+x"])
      = lineNumbers (run init ["@@ -5,2 +5,3 @@"]) ++ recorded ++ later
    /\ StronglySorted N.lt recorded.
Proof.
  apply (parseDiff_increasing_between_headers
           (unlines ["@@ -5,2 +5,3 @@"; " ctx"; "+added1"; "+added2";
                     "@@ -9 +2 @@"; "+x"])
           ["@@ -5,2 +5,3 @@"] [" ctx"; "+added1"; "+added2"]
           ["@@ -9 +2 @@"; "+x"]).
  - reflexivity.
  - repeat constructor.
  - vm_compute. discriminate.
Defined.

(** C10 as worded fails: after the header [@@ -1 +9007199254740992 @@]
    the cursor is 2^53, and adding one to the double 2^53 gives 2^53.
    The three additions that follow, with no header in between, are all
    recorded as 2^53: the sequence is not strictly increasing. *)
Lemma parseDiff_repeats_counterexample :
  let before := ["@@ -1 +9007199254740992 @@"] in
  let hunk := ["+a"; "+b"; "+c"] in
  let recorded := [9007199254740992; 9007199254740992; 9007199254740992]%N in
  split LF (unlines (before ++ hunk)) = before ++ hunk ++ []
  /\ Forall (fun line => resets line = false) hunk
  /\ lineNumbers (run init (before ++ hunk))
       = lineNumbers (run init before) ++ recorded
  /\ parseDiff (unlines (before ++ hunk)) = recorded
  /\ ~ StronglySorted N.lt recorded.
Proof.
  cbv zeta. split; [reflexivity|]. split; [repeat constructor|].
  split; [vm_compute; reflexivity|]. split; [vm_compute; reflexivity|].
  intros H. inversion H as [|? ? _ Hall]. subst.
  inversion Hall as [|? ? Hlt _]. subst. revert Hlt. apply N.lt_irrefl.
Qed.

End DiffParserFacts.

(** ** Attribution Engine *)

Module AttributionFacts.
Import Attribution.

Lemma touches_spec (testCase : LineRange) (l : N) :
  touches testCase l = true <-> (start testCase <= l <= end_ testCase)%N.
Proof.
  unfold touches. rewrite andb_true_iff, !N.leb_le. reflexivity.
Qed.

(** The test of the filter, as a proposition. *)
Lemma updated_spec (testCase : LineRange) (updateLines : list N) :
  existsb (touches testCase) updateLines = true <->
  exists l, In l updateLines /\ (start testCase <= l <= end_ testCase)%N.
Proof.
  rewrite existsb_exists. split; intros (l & Hin & H); exists l;
    (split; [assumption | now apply touches_spec]).
Qed.

(** C2.  A test case is among the updated ones exactly when it is among
    the test cases given and some changed line lies in [[start, end]],
    both ends included; the test cases are gone through one by one, in
    order, each kept or dropped by that test alone.  For [{10, 20}]:
    line 19 flags it, line 21 does not, lines 10 and 20 each do. *)
Theorem getUpdatedTestCases_inclusive :
  (forall testCases updateLines testCase,
     In testCase (getUpdatedTestCases testCases updateLines) <->
     In testCase testCases /\
     exists l, In l updateLines /\
               (start testCase <= l <= end_ testCase)%N)
  /\ (forall updateLines, getUpdatedTestCases [] updateLines = [])
  /\ (forall testCase rest updateLines,
        (exists l, In l updateLines /\
                   (start testCase <= l <= end_ testCase)%N) ->
        getUpdatedTestCases (testCase :: rest) updateLines =
          testCase :: getUpdatedTestCases rest updateLines)
  /\ (forall testCase rest updateLines,
        ~ (exists l, In l updateLines /\
                     (start testCase <= l <= end_ testCase)%N) ->
        getUpdatedTestCases (testCase :: rest) updateLines =
          getUpdatedTestCases rest updateLines)
  /\ getUpdatedTestCases [mkRange 10 20] [19%N] = [mkRange 10 20]
  /\ getUpdatedTestCases [mkRange 10 20] [21%N] = []
  /\ getUpdatedTestCases [mkRange 10 20] [10%N] = [mkRange 10 20]
  /\ getUpdatedTestCases [mkRange 10 20] [20%N] = [mkRange 10 20].
Proof.
  split.
  { intros testCases updateLines testCase. unfold getUpdatedTestCases.
    rewrite filter_In, updated_spec. reflexivity. }
  split; [reflexivity|].
  split.
  { intros testCase rest updateLines H. apply updated_spec in H.
    unfold getUpdatedTestCases. simpl. now rewrite H. }
  split.
  { intros testCase rest updateLines H. unfold getUpdatedTestCases. simpl.
    destruct (existsb (touches testCase) updateLines) eqn:E;
      [|reflexivity].
    apply updated_spec in E. contradiction. }
  repeat split.
Qed.

Lemma getUpdatedTestCases_inclusive_witness :
  getUpdatedTestCases [mkRange 10 20; mkRange 30 40] [5%N; 20%N]
    = mkRange 10 20 :: getUpdatedTestCases [mkRange 30 40] [5%N; 20%N]
  /\ getUpdatedTestCases [mkRange 10 20; mkRange 30 40] [21%N]
    = getUpdatedTestCases [mkRange 30 40] [21%N].
Proof.
  destruct getUpdatedTestCases_inclusive as (_ & _ & Hkeep & Hdrop & _).
  split.
  - apply Hkeep. exists 20%N. simpl. split; [now right; left | lia].
  - apply Hdrop. intros (l & [<- | []] & Hl). simpl in Hl. lia.
Defined.

End AttributionFacts.

(** ** Test-file filter *)

Module TestFilesFacts.
Import JS Minimatch TestFiles.

Lemma isTestCaseFile_patterns (file : string) :
  isTestCaseFile file = true <->
  exists pattern, In pattern patterns /\ minimatch file pattern = true.
Proof.
  unfold isTestCaseFile, patterns. rewrite !orb_true_iff. split.
  - intros [[[[H|H]|H]|H]|H]; eexists; (split; [|exact H]); simpl; tauto.
  - intros (pattern & Hin & H). simpl in Hin.
    destruct Hin as [<-|[<-|[<-|[<-|[<-|[]]]]]]; tauto.
Qed.

(** C5.  A path is kept exactly when it is one of the paths given and
    [minimatch] accepts it for one of the five patterns; the paths kept
    stay in order.  [src/foo.test.ts] and [src/bar.spec.js] are kept,
    [src/foo.ts] and [src/foo.testx.js] are not. *)
Theorem getTestCaseFiles_five_patterns :
  (forall files file,
     In file (getTestCaseFiles files) <->
     In file files /\
     exists pattern, In pattern patterns /\ minimatch file pattern = true)
  /\ patterns = [ "**/*.spec.js"; "**/*.test.js"; "**/*.test.tsx";
                  "**/*.test.jsx"; "**/*.test.ts" ]
  /\ (forall file rest,
        getTestCaseFiles (file :: rest) =
          if existsb (minimatch file) patterns
          then file :: getTestCaseFiles rest else getTestCaseFiles rest)
  /\ getTestCaseFiles
       ["src/foo.test.ts"; "src/bar.spec.js"; "src/foo.ts"; "src/foo.testx.js"]
     = ["src/foo.test.ts"; "src/bar.spec.js"].
Proof.
  split.
  { intros files file. unfold getTestCaseFiles.
    rewrite filter_In, isTestCaseFile_patterns. reflexivity. }
  split; [reflexivity|].
  split; [|vm_compute; reflexivity].
  intros file rest. unfold getTestCaseFiles. simpl filter.
  replace (existsb (minimatch file) patterns) with (isTestCaseFile file);
    [reflexivity|].
  unfold isTestCaseFile, patterns. simpl existsb.
  now rewrite orb_false_r, !orb_assoc.
Qed.

End TestFilesFacts.

(** ** Test-Block Extractor *)

Module TestBlocksFacts.
Import JS Attribution TestBlocks.

(** Induction over a tree, with the hypothesis for every child. *)
Lemma Node_forall_ind (P : Node -> Prop) :
  (forall name, P (Identifier name)) ->
  (forall object property computed,
     P object -> P property -> P (MemberExpression object property computed)) ->
  (forall loc callee arguments,
     P callee -> Forall P arguments ->
     P (CallExpression loc callee arguments)) ->
  (forall children, Forall P children -> P (OtherNode children)) ->
  forall n, P n.
Proof.
  intros Hid Hmem Hcall Hother.
  fix IH 1. intros [name|object property computed|loc callee arguments|children].
  - apply Hid.
  - apply Hmem; apply IH.
  - apply Hcall; [apply IH|].
    induction arguments as [|a arguments IHargs]; constructor;
      [apply IH | exact IHargs].
  - apply Hother.
    induction children as [|a children IHch]; constructor;
      [apply IH | exact IHch].
Qed.

Lemma name_in_spec (names : list string) (n : Node) :
  name_in names n = true <-> exists name, n = Identifier name /\ In name names.
Proof.
  unfold name_in. destruct n as [name| | |]; simpl.
  - rewrite existsb_exists. split.
    + intros (x & Hin & E). apply String.eqb_eq in E. subst x. now exists name.
    + intros (x & [= <-] & Hin). exists name. split; [assumption|].
      apply String.eqb_refl.
  - split; [discriminate | intros (x & E & _); discriminate].
  - split; [discriminate | intros (x & E & _); discriminate].
  - split; [discriminate | intros (x & E & _); discriminate].
Qed.

(** The condition of the visitor, in words. *)
Lemma isTestCallee_spec (callee : Node) :
  isTestCallee callee = true <->
  (exists name, callee = Identifier name /\ (name = "test" \/ name = "it"))
  \/ (exists object property computed,
        callee = MemberExpression (Identifier object) (Identifier property)
                                  computed
        /\ (object = "test" \/ object = "it")
        /\ (property = "skip" \/ property = "only")).
Proof.
  destruct callee as [name|object property computed|loc f args|children];
    simpl.
  - rewrite orb_true_iff, !String.eqb_eq. split.
    + intros H. left. now exists name.
    + intros [(x & [= <-] & H) | (o & p & c & E & _)];
        [assumption | discriminate].
  - rewrite andb_true_iff, !name_in_spec. split.
    + intros [(o & -> & Ho) (p & -> & Hp)]. right. exists o, p, computed.
      simpl in Ho, Hp. intuition congruence.
    + intros [(x & E & _) | (o & p & c & [= -> -> <-] & Ho & Hp)];
        [discriminate|].
      split; [exists o | exists p]; simpl; intuition.
  - split; [discriminate|].
    intros [(x & E & _) | (o & p & c & E & _)]; discriminate.
  - split; [discriminate|].
    intros [(x & E & _) | (o & p & c & E & _)]; discriminate.
Qed.

Lemma in_visitCall (r : LineRange) (loc : SourceLocation) (callee : Node) :
  In r (visitCall loc callee) <->
  isTestCallee callee = true /\ r = rangeOf loc.
Proof.
  unfold visitCall, rangeOf. destruct (isTestCallee callee); simpl.
  - intuition.
  - intuition discriminate.
Qed.

(** What [traverse] collects comes from the call nodes of the tree. *)
Lemma traverse_sound (r : LineRange) :
  forall ast,
    In r (traverse ast) ->
    exists loc callee arguments,
      Inside (CallExpression loc callee arguments) ast
      /\ isTestCallee callee = true /\ r = rangeOf loc.
Proof.
  induction ast as [name|object property computed IHo IHp
                   |loc callee arguments IHc IHargs|children IHch]
    using Node_forall_ind; simpl; intros Hin.
  - contradiction.
  - apply in_app_or in Hin as [Hin|Hin].
    + destruct (IHo Hin) as (l & c & a & Hi & H).
      exists l, c, a. split; [now apply Inside_object | exact H].
    + destruct (IHp Hin) as (l & c & a & Hi & H).
      exists l, c, a. split; [now apply Inside_property | exact H].
  - apply in_app_or in Hin as [Hin|Hin].
    + apply in_visitCall in Hin.
      exists loc, callee, arguments. split; [apply Inside_here | exact Hin].
    + apply in_app_or in Hin as [Hin|Hin].
      * destruct (IHc Hin) as (l & c & a & Hi & H).
        exists l, c, a. split; [now apply Inside_callee | exact H].
      * apply in_flat_map in Hin as (x & Hx & Hin).
        rewrite Forall_forall in IHargs.
        destruct (IHargs x Hx Hin) as (l & c & a & Hi & H).
        exists l, c, a. split; [now apply Inside_argument with x | exact H].
  - apply in_flat_map in Hin as (x & Hx & Hin).
    rewrite Forall_forall in IHch.
    destruct (IHch x Hx Hin) as (l & c & a & Hi & H).
    exists l, c, a. split; [now apply Inside_child with x | exact H].
Qed.

(** Every call node of the tree is visited. *)
Lemma traverse_complete (r : LineRange) (x ast : Node) :
  Inside x ast -> In r (traverse x) -> In r (traverse ast).
Proof.
  induction 1 as [|o p c _ IH|o p c _ IH|loc callee args _ IH
                 |loc callee args a Ha _ IH|children a Ha _ IH];
    intros Hin; simpl.
  - exact Hin.
  - apply in_or_app. left. now apply IH.
  - apply in_or_app. right. now apply IH.
  - apply in_or_app. right. apply in_or_app. left. now apply IH.
  - apply in_or_app. right. apply in_or_app. right.
    apply in_flat_map. exists a. split; [exact Ha | now apply IH].
  - apply in_flat_map. exists a. split; [exact Ha | now apply IH].
Qed.

Lemma flat_map_flat_map {A B C} (f : A -> list B) (g : B -> list C)
    (l : list A) :
  flat_map g (flat_map f l) = flat_map (fun a => flat_map g (f a)) l.
Proof.
  induction l as [|a l IH]; simpl; [reflexivity|].
  now rewrite flat_map_app, IH.
Qed.

Lemma flat_map_pointwise {A B} (f g : A -> list B) (l : list A) :
  Forall (fun a => f a = g a) l -> flat_map f l = flat_map g l.
Proof.
  induction 1 as [|a l E _ IH]; simpl; [reflexivity | now rewrite E, IH].
Qed.

(** [traverse] goes through the call nodes in source order. *)
Lemma traverse_calls (ast : Node) :
  traverse ast =
    flat_map (fun c => visitCall (fst c) (snd c)) (calls ast).
Proof.
  induction ast as [name|object property computed IHo IHp
                   |loc callee arguments IHc IHargs|children IHch]
    using Node_forall_ind; simpl.
  - reflexivity.
  - now rewrite flat_map_app, IHo, IHp.
  - rewrite flat_map_app, IHc, flat_map_flat_map. do 2 f_equal.
    now apply flat_map_pointwise.
  - rewrite flat_map_flat_map. now apply flat_map_pointwise.
Qed.

(** C6.  The visitor accepts a callee exactly when it is an identifier
    named [test] or [it], or a member access whose object is an
    identifier named [test] or [it] and whose property is an identifier
    named [skip] or [only].  A range is in the result exactly when it is
    the start line and end line of the location of a call node of the
    tree whose callee is accepted; the ranges come in the order in which
    the traversal meets the call nodes; and for a file that exists, can
    be read and parses, the function returns what the traversal
    collects. *)
Theorem getTestCasesLineNumbersByFile_matches :
  (forall callee,
     isTestCallee callee = true <->
     (exists name, callee = Identifier name /\ (name = "test" \/ name = "it"))
     \/ (exists object property computed,
           callee = MemberExpression (Identifier object)
                                     (Identifier property) computed
           /\ (object = "test" \/ object = "it")
           /\ (property = "skip" \/ property = "only")))
  /\ (forall ast r,
        In r (traverse ast) <->
        exists loc callee arguments,
          Inside (CallExpression loc callee arguments) ast
          /\ isTestCallee callee = true
          /\ r = mkRange (line (loc_start loc)) (line (loc_end loc)))
  /\ (forall ast,
        traverse ast =
          flat_map (fun c => if isTestCallee (snd c)
                             then [mkRange (line (loc_start (fst c)))
                                           (line (loc_end (fst c)))]
                             else [])
                   (calls ast))
  /\ (forall existsSync readFileSync parse filePath code ast,
        existsSync filePath = true ->
        readFileSync filePath = Some code ->
        parse code = Some ast ->
        getTestCasesLineNumbersByFile existsSync readFileSync parse filePath
          = Returned (traverse ast)).
Proof.
  split; [exact isTestCallee_spec|].
  split.
  { intros ast r. split.
    - apply traverse_sound.
    - intros (loc & callee & arguments & Hin & Hc & ->).
      apply (traverse_complete _ _ _ Hin). simpl.
      apply in_or_app. left. apply in_visitCall. now split. }
  split; [exact traverse_calls|].
  intros existsSync readFileSync parse filePath code ast He Hr Hp.
  unfold getTestCasesLineNumbersByFile. now rewrite He, Hr, Hp.
Qed.

Lemma getTestCasesLineNumbersByFile_matches_witness :
  getTestCasesLineNumbersByFile
    (fun path => String.eqb path "a.test.js")
    (fun path => if String.eqb path "a.test.js" then Some "src" else None)
    (fun code => if String.eqb code "src" then Some sampleAst else None)
    "a.test.js"
  = Returned [mkRange 2 3].
Proof.
  destruct getTestCasesLineNumbersByFile_matches as (_ & _ & _ & H).
  exact (H (fun path => String.eqb path "a.test.js")
           (fun path => if String.eqb path "a.test.js" then Some "src"
                        else None)
           (fun code => if String.eqb code "src" then Some sampleAst
                        else None)
           "a.test.js" "src" sampleAst eq_refl eq_refl eq_refl).
Defined.

(** C9.  For a path at which nothing exists the function returns the
    empty sequence; it does not throw, and neither reads nor parses. *)
Theorem getTestCasesLineNumbersByFile_missing_file
    (existsSync : string -> bool) (readFileSync : string -> option string)
    (parse : string -> option Node) (filePath : string) :
  existsSync filePath = false ->
  getTestCasesLineNumbersByFile existsSync readFileSync parse filePath
    = Returned [].
Proof.
  intros H. unfold getTestCasesLineNumbersByFile. rewrite H. reflexivity.
Qed.

Lemma getTestCasesLineNumbersByFile_missing_file_witness :
  getTestCasesLineNumbersByFile
    (fun path => String.eqb path "a.test.js")
    (fun _ => None) (fun _ => None) "gone.test.js"
  = Returned [].
Proof.
  apply (getTestCasesLineNumbersByFile_missing_file
           (fun path => String.eqb path "a.test.js")
           (fun _ => None) (fun _ => None) "gone.test.js").
  reflexivity.
Defined.

End TestBlocksFacts.

(** ** Queries to the version-control tool *)

Module ShellFacts.
Import JS Shell.

Lemma value_bind {A B} (m : Shell A) (f : A -> Shell B) :
  value (bind m f) = value (f (value m)).
Proof. unfold bind, value. now destruct (f (fst m)). Qed.

Lemma issued_bind {A B} (m : Shell A) (f : A -> Shell B) :
  issued (bind m f) = issued m ++ issued (f (value m)).
Proof. unfold bind, issued, value. now destruct (f (fst m)). Qed.

Lemma value_ret {A} (a : A) : value (ret a) = a.
Proof. reflexivity. Qed.

Lemma issued_ret {A} (a : A) : issued (ret a) = [].
Proof. reflexivity. Qed.

(** A loop that updates one variable is a left fold of the values. *)
Lemma value_forEach {A S} (body : S -> A -> Shell S) (l : list A) :
  forall s,
    value (forEach l body s) = fold_left (fun s a => value (body s a)) l s.
Proof.
  induction l as [|a l IH]; intros s; simpl; [reflexivity|].
  now rewrite value_bind, IH.
Qed.

Lemma fold_left_pointwise {A S} (f g : S -> A -> S) (l : list A) :
  (forall s a, f s a = g s a) ->
  forall s, fold_left f l s = fold_left g l s.
Proof.
  intros E. induction l as [|a l IH]; intros s; simpl;
    [reflexivity | now rewrite E, IH].
Qed.

End ShellFacts.

(** ** The command line *)

Module CommandLineFacts.
Import JS Shell CommandLine JSFacts.














End CommandLineFacts.

(** ** Line-Count Aggregator and Change-Set Resolver *)

Module GitFacts.
Import JS Shell DiffParser Git JSFacts ShellFacts.

Section Tool.
Variable execSync : string -> string -> option string.

(** [runCommand] returns the trimmed output, or [''] when the tool
    fails. *)
Lemma runCommand_value (command cwd : string) :
  value (runCommand execSync command cwd) =
    match execSync command cwd with
    | Some result => trim result
    | None => ""
    end.
Proof.
  unfold runCommand, value. simpl.
  destruct (execSync command cwd) as [[|c r]|]; reflexivity.
Qed.

Lemma runCommand_issued (command cwd : string) :
  issued (runCommand execSync command cwd) = [command].
Proof. reflexivity. Qed.

(** *** Sums *)

Lemma sumN_cons (x : N) (l : list N) : sumN (x :: l) = (x + sumN l)%N.
Proof. reflexivity. Qed.

(** A run of additions on doubles gives the exact sum as long as that
    sum is 2^53 at most. *)
Lemma fold_addDouble_exact {A} (f : A -> N) (l : list A) :
  forall a,
    (a + sumN (map f l) <= MAX_SAFE)%N ->
    fold_left (fun sum val => addDouble sum (f val)) l a
    = (a + sumN (map f l))%N.
Proof.
  induction l as [|x l IH]; intros a H.
  - simpl. now rewrite N.add_0_r.
  - cbn [map fold_left] in *. rewrite sumN_cons in *.
    rewrite addDouble_exact by lia. rewrite IH by lia. lia.
Qed.

(** The lines that are filtered out are those that count for nothing,
    and a count of 2^53 at most is read as it is. *)
Lemma addedLines_fold (lines : list string) :
  forall a,
    (a + sumN (map contribution lines) <= MAX_SAFE)%N ->
    fold_left (fun sum val => addDouble sum (parseInt val))
      (filter isDigitRun (map addedColumn lines)) a
    = (a + sumN (map contribution lines))%N.
Proof.
  induction lines as [|line lines IH]; intros a H.
  - simpl. now rewrite N.add_0_r.
  - cbn [map filter] in *. rewrite sumN_cons in *.
    unfold contribution at 1. unfold contribution at 1 in H.
    destruct (isDigitRun (addedColumn line)).
    + cbn [fold_left]. rewrite parseInt_exact by lia.
      rewrite addDouble_exact by lia. rewrite IH by lia. lia.
    + rewrite IH by lia. lia.
Qed.

Lemma addedLines_sum (stdout : string) :
  (sumN (map contribution (split LF stdout)) <= MAX_SAFE)%N ->
  addedLines stdout = sumN (map contribution (split LF stdout)).
Proof.
  intros H. unfold addedLines.
  rewrite addedLines_fold; [apply N.add_0_l|].
  now rewrite N.add_0_l.
Qed.

Lemma total_fold (repoPath : string) (commits : list string) :
  forall totalLines,
    (totalLines +
     sumN (map (fun commit =>
                  sumN (map contribution
                          (numstatLines execSync commit repoPath)))
               commits) <= MAX_SAFE)%N ->
    fold_left
      (fun total commit =>
         addDouble total
           (addedLines
              (value (runCommand execSync (numstatCommand commit)
                                 repoPath))))
      commits totalLines
    = (totalLines +
       sumN (map (fun commit =>
                    sumN (map contribution
                            (numstatLines execSync commit repoPath)))
                 commits))%N.
Proof.
  induction commits as [|commit commits IH]; intros totalLines H.
  - simpl. now rewrite N.add_0_r.
  - cbn [map fold_left] in *. rewrite sumN_cons in *.
    rewrite addedLines_sum; fold (numstatLines execSync commit repoPath);
      [|lia].
    rewrite addDouble_exact by lia.
    rewrite IH by lia. lia.
Qed.

(** The total, whatever its size: a run of additions on doubles. *)
Lemma getTotalLinesByAuthor_fold (commits : list string)
    (repoPath : string) :
  value (getTotalLinesByAuthor execSync commits repoPath)
  = fold_left
      (fun total commit =>
         addDouble total
           (addedLines
              (value (runCommand execSync (numstatCommand commit)
                                 repoPath))))
      commits 0%N.
Proof.
  unfold getTotalLinesByAuthor. rewrite value_forEach.
  apply fold_left_pointwise. intros total commit.
  now rewrite value_bind, value_ret.
Qed.

(** *** The set of files *)

Lemma in_addFile (files : list string) (file f : string) :
  In f (addFile files file) <->
  In f files \/ (trim file = f /\ f <> "").
Proof.
  unfold addFile. destruct (truthy (trim file)) eqn:E.
  - rewrite in_add. apply truthy_true in E.
    split; intros [H|H]; auto.
    + subst f. auto.
    + right. symmetry. apply H.
  - destruct (trim file); [|discriminate].
    split; [tauto|]. intros [H|[<- H]]; [assumption | now elim H].
Qed.

Lemma in_fold_addFile (f : string) (lines : list string) :
  forall files,
    In f (fold_left addFile lines files) <->
    In f files \/ exists line, In line lines /\ trim line = f /\ f <> "".
Proof.
  induction lines as [|line lines IH]; intros files; simpl.
  - split; [tauto|]. intros [H|(l & [] & _)]. exact H.
  - rewrite IH, in_addFile. split.
    + intros [[H|H]|(l & Hl & H)]; [tauto| |].
      * right. exists line. tauto.
      * right. exists l. tauto.
    + intros [H|(l & [<-|Hl] & H)]; [tauto|tauto|].
      right. exists l. tauto.
Qed.

Lemma NoDup_fold_addFile (lines : list string) :
  forall files, NoDup files -> NoDup (fold_left addFile lines files).
Proof.
  induction lines as [|line lines IH]; intros files H; simpl;
    [assumption|].
  apply IH. unfold addFile.
  destruct (truthy (trim line)); [now apply NoDup_add | assumption].
Qed.

Lemma filesStep_guard (repoPath : string) (files : list string)
    (commit : string) :
  (let stdout := value (runCommand execSync (showCommand commit) repoPath) in
   if truthy stdout then fold_left addFile (split LF stdout) files
   else files)
  = filesStep execSync repoPath files commit.
Proof.
  unfold filesStep, nameOnlyLines. cbv zeta.
  generalize (value (runCommand execSync (showCommand commit) repoPath)).
  intros [|c stdout]; reflexivity.
Qed.

Lemma getListOfFiles_fold (commits : list string) (repoPath : string) :
  value (getListOfFiles execSync commits repoPath)
  = fold_left (filesStep execSync repoPath) commits [].
Proof.
  unfold getListOfFiles. rewrite value_forEach.
  apply fold_left_pointwise. intros files commit.
  rewrite value_bind, value_ret. apply filesStep_guard.
Qed.

Lemma in_fold_filesStep (repoPath f : string) (commits : list string) :
  forall files,
    In f (fold_left (filesStep execSync repoPath) commits files) <->
    In f files \/
    exists commit line,
      In commit commits
      /\ In line (nameOnlyLines execSync commit repoPath)
      /\ trim line = f /\ f <> "".
Proof.
  induction commits as [|commit commits IH]; intros files; simpl.
  - split; [tauto|]. intros [H|(c & l & [] & _)]. exact H.
  - rewrite IH. unfold filesStep. rewrite in_fold_addFile. split.
    + intros [[H|(l & Hl & H)]|(c & l & Hc & H)]; [tauto| |].
      * right. exists commit, l. tauto.
      * right. exists c, l. tauto.
    + intros [H|(c & l & [<-|Hc] & H)]; [tauto| |].
      * left. right. exists l. tauto.
      * right. exists c, l. tauto.
Qed.

Lemma NoDup_fold_filesStep (repoPath : string) (commits : list string) :
  forall files,
    NoDup files ->
    NoDup (fold_left (filesStep execSync repoPath) commits files).
Proof.
  induction commits as [|commit commits IH]; intros files H; simpl;
    [assumption|].
  apply IH. now apply NoDup_fold_addFile.
Qed.

End Tool.

(** C7, within the range of exact arithmetic.  When the sum, over the
    commits and over the lines of each commit's numstat summary, of what
    the lines count for is 2^53 at most, the total is that sum.  A line
    counts for the integer in its first tab-separated field when that
    field is a non-empty run of decimal digits, and for [0] otherwise.
    The function is total: no line makes it fail.  A binary-file line
    [-<TAB>-<TAB>name] counts for [0].  Whatever the size of the
    numbers, the total is built by additions on doubles, commit by
    commit, of sums built the same way, line by line, from the doubles
    nearest to the integers in the digit-run fields. *)
Theorem getTotalLinesByAuthor_sum :
  (forall execSync commits repoPath,
     (sumN (map (fun commit =>
                   sumN (map contribution
                           (numstatLines execSync commit repoPath)))
                commits) <= MAX_SAFE)%N ->
     value (getTotalLinesByAuthor execSync commits repoPath) =
       sumN (map (fun commit =>
                    sumN (map contribution
                            (numstatLines execSync commit repoPath)))
                 commits))
  /\ (forall line,
        isDigitRun (hd "" (split TAB line)) = true ->
        contribution line = decimalValue (hd "" (split TAB line)))
  /\ (forall line,
        isDigitRun (hd "" (split TAB line)) = false ->
        contribution line = 0%N)
  /\ decimalValue "" = 0%N
  /\ (forall s c,
        decimalValue (s ++ str c) = (decimalValue s * 10 + digitValue c)%N)
  /\ (forall execSync commits repoPath,
        value (getTotalLinesByAuthor execSync commits repoPath) =
          fold_left
            (fun totalLines commit =>
               roundDouble
                 (totalLines +
                  fold_left
                    (fun sum val =>
                       roundDouble (sum + roundDouble (decimalValue val)))
                    (filter isDigitRun
                       (map (fun line => hd "" (split TAB line))
                          (numstatLines execSync commit repoPath)))
                    0)%N)
            commits 0%N)
  /\ contribution ("-" ++ str TAB ++ "-" ++ str TAB ++ "binaryfile") = 0%N
  /\ value (getTotalLinesByAuthor
              (fun command _ =>
                 Some ("12" ++ str TAB ++ "3" ++ str TAB ++ "a.js" ++ str LF
                       ++ "-" ++ str TAB ++ "-" ++ str TAB ++ "binaryfile"
                       ++ str LF ++ "7" ++ str TAB ++ "0" ++ str TAB
                       ++ "b.js")%string)
              ["c1"; "c2"] "/repo") = 38%N.
Proof.
  split.
  { intros execSync commits repoPath H.
    rewrite getTotalLinesByAuthor_fold, total_fold; [apply N.add_0_l|].
    now rewrite N.add_0_l. }
  split.
  { intros line H. unfold contribution, addedColumn. now rewrite H. }
  split.
  { intros line H. unfold contribution, addedColumn. now rewrite H. }
  split; [reflexivity|].
  split; [exact decimalValue_snoc|].
  split.
  { intros execSync commits repoPath. apply getTotalLinesByAuthor_fold. }
  split; vm_compute; reflexivity.
Qed.

Lemma getTotalLinesByAuthor_sum_witness :
  value (getTotalLinesByAuthor
           (fun command _ =>
              Some ("12" ++ str TAB ++ "3" ++ str TAB ++ "a.js" ++ str LF
                    ++ "7" ++ str TAB ++ "0" ++ str TAB ++ "b.js")%string)
           ["c1"; "c2"] "/repo") = 38%N
  /\ contribution ("12" ++ str TAB ++ "3" ++ str TAB ++ "a.js") = 12%N
  /\ contribution ("1x" ++ str TAB ++ "3" ++ str TAB ++ "a.js") = 0%N.
Proof.
  destruct getTotalLinesByAuthor_sum as (Hsum & Hnum & Hskip & _).
  split.
  { exact (Hsum (fun command _ =>
                   Some ("12" ++ str TAB ++ "3" ++ str TAB ++ "a.js"
                         ++ str LF ++ "7" ++ str TAB ++ "0" ++ str TAB
                         ++ "b.js")%string)
             ["c1"; "c2"] "/repo"
             (proj1 (N.leb_le 38 MAX_SAFE) eq_refl)). }
  split.
  - exact (Hnum ("12" ++ str TAB ++ "3" ++ str TAB ++ "a.js")%string
             eq_refl).
  - exact (Hskip ("1x" ++ str TAB ++ "3" ++ str TAB ++ "a.js")%string
             eq_refl).
Defined.

(** C7 as worded fails: the counts are doubles.  A numstat summary with
    the counts 9007199254740992 (2^53), 1 and 1 sums to 2^53 + 2; the
    script returns 2^53, since adding 1 to the double 2^53 gives 2^53
    each time.  The same happens across commits.  And a single count of
    2^53 + 1 is read, and returned, as 2^53. *)
Lemma getTotalLinesByAuthor_rounds_counterexample :
  let numstat :=
    ("9007199254740992" ++ str TAB ++ "0" ++ str TAB ++ "a.js" ++ str LF
     ++ "1" ++ str TAB ++ "0" ++ str TAB ++ "b.js" ++ str LF
     ++ "1" ++ str TAB ++ "0" ++ str TAB ++ "c.js")%string in
  let execSync := fun (command cwd : string) => Some numstat in
  let perCommit := fun (command cwd : string) =>
    if includes command "big"
    then Some ("9007199254740992" ++ str TAB ++ "0" ++ str TAB ++ "a.js")%string
    else Some ("1" ++ str TAB ++ "0" ++ str TAB ++ "b.js")%string in
  let single := fun (command cwd : string) =>
    Some ("9007199254740993" ++ str TAB ++ "0" ++ str TAB ++ "a.js")%string in
  map contribution (numstatLines execSync "c1" "/repo")
    = [9007199254740992; 1; 1]%N
  /\ sumN (map contribution (numstatLines execSync "c1" "/repo"))
       = 9007199254740994%N
  /\ value (getTotalLinesByAuthor execSync ["c1"] "/repo")
       = 9007199254740992%N
  /\ value (getTotalLinesByAuthor execSync ["c1"] "/repo")
       <> sumN (map contribution (numstatLines execSync "c1" "/repo"))
  /\ value (getTotalLinesByAuthor perCommit ["big"; "c2"; "c3"] "/repo")
       = 9007199254740992%N
  /\ sumN (map (fun commit =>
                  sumN (map contribution
                          (numstatLines perCommit commit "/repo")))
               ["big"; "c2"; "c3"]) = 9007199254740994%N
  /\ sumN (map contribution (numstatLines single "c1" "/repo"))
       = 9007199254740993%N
  /\ value (getTotalLinesByAuthor single ["c1"] "/repo")
       = 9007199254740992%N.
Proof. vm_compute. repeat split; discriminate. Qed.

(** C8.  In the second copy of the script the files returned are
    without duplicates; a name is returned exactly when it is the
    trimmed, non-empty form of a line of the changed-file list of one of
    the commits; so every name returned is non-empty, is not made of
    white space only, and carries no white space around it.  The first
    copy of the script neither trims nor drops: for a commit whose list
    is empty it returns the empty name, and a line of one blank is
    returned as it is. *)
Theorem getListOfFiles_union :
  (forall execSync commits repoPath,
     let files := value (getListOfFiles execSync commits repoPath) in
     NoDup files
     /\ (forall f,
           In f files <->
           exists commit line,
             In commit commits
             /\ In line (nameOnlyLines execSync commit repoPath)
             /\ trim line = f /\ f <> "")
     /\ (forall f,
           In f files ->
           f <> "" /\ whitespaceOnly f = false /\ trim f = f))
  /\ value (Rev1.getListOfFiles (fun _ _ => None) ["abc"] "/repo") = [""]
  /\ value (getListOfFiles (fun _ _ => None) ["abc"] "/repo") = []
  /\ value (Rev1.getListOfFiles sampleTool ["abc"; "def"; "xyz"] "/repo")
     = ["src/a.test.js"; " "; "src/b.js"; "README.md"; ""]
  /\ value (getListOfFiles sampleTool ["abc"; "def"; "xyz"] "/repo")
     = ["src/a.test.js"; "src/b.js"; "README.md"].
Proof.
  split; [|repeat split; vm_compute; reflexivity].
  intros execSync commits repoPath files.
  assert (Hin : forall f,
            In f files <->
            exists commit line,
              In commit commits
              /\ In line (nameOnlyLines execSync commit repoPath)
              /\ trim line = f /\ f <> "").
  { intros f. unfold files. rewrite getListOfFiles_fold, in_fold_filesStep.
    simpl. tauto. }
  split.
  { unfold files. rewrite getListOfFiles_fold.
    apply NoDup_fold_filesStep. constructor. }
  split; [exact Hin|].
  intros f Hf. apply Hin in Hf as (commit & line & _ & _ & Et & Hne).
  destruct (trim_result line f Et Hne) as [Ht Hw]. tauto.
Qed.

Lemma getListOfFiles_union_witness :
  "src/a.test.js" <> ""
  /\ whitespaceOnly "src/a.test.js" = false
  /\ trim "src/a.test.js" = "src/a.test.js".
Proof.
  destruct getListOfFiles_union as (Hsecond & _).
  destruct (Hsecond sampleTool ["abc"; "def"] "/repo") as (_ & _ & H).
  apply H. simpl. tauto.
Defined.

(** *** Commit Collector *)

Lemma in_addAll (h : string) (items : list string) :
  forall set, In h (addAll set items) <-> In h set \/ In h items.
Proof.
  unfold addAll. induction items as [|x items IH]; intros set; simpl.
  - tauto.
  - rewrite IH, in_add. intuition.
Qed.

Lemma NoDup_addAll (items : list string) :
  forall set, NoDup set -> NoDup (addAll set items).
Proof.
  unfold addAll. induction items as [|x items IH]; intros set H; simpl;
    [assumption|].
  apply IH. now apply NoDup_add.
Qed.

Lemma split_one_more (c : ascii) (h r : string) :
  split c h = [h] -> split c (h ++ String c r) = h :: split c r.
Proof.
  induction h as [|a h IH]; simpl.
  - intros _. now rewrite Ascii.eqb_refl.
  - destruct (Ascii.eqb a c); [discriminate|].
    destruct (split c h) as [|x t] eqn:E.
    + now elim (split_nonempty c h).
    + intros [= -> ->]. now rewrite IH.
Qed.

Section Collector.
Variable execSync : string -> string -> option string.
Variables AUTHOR SINCE_DATE UNTIL_DATE : string.

Lemma in_addPartial (h line : string) (set : list string) :
  In h (addPartial AUTHOR set line) <->
  In h set \/ (hasBothNames AUTHOR (authorOf line) = true /\ h = hashOf line).
Proof.
  unfold addPartial. fold (authorOf line) (hashOf line).
  destruct (hasBothNames AUTHOR (authorOf line)).
  - rewrite in_add. tauto.
  - split; [tauto|]. intros [H|[H _]]; [assumption | discriminate].
Qed.

Lemma in_fold_addPartial (h : string) (lines : list string) :
  forall set,
    In h (fold_left (addPartial AUTHOR) lines set) <->
    In h set \/
    exists line, In line lines
                 /\ hasBothNames AUTHOR (authorOf line) = true
                 /\ h = hashOf line.
Proof.
  induction lines as [|line lines IH]; intros set; cbn [fold_left].
  - split; [tauto|]. intros [H|(l & [] & _)]. exact H.
  - rewrite IH, in_addPartial. split.
    + intros [[H|H]|(l & Hl & H)]; [tauto| |].
      * right. exists line. split; [now left | exact H].
      * right. exists l. split; [now right | exact H].
    + intros [H|(l & [<-|Hl] & H)]; [tauto|tauto|].
      right. exists l. tauto.
Qed.

Lemma NoDup_fold_addPartial (lines : list string) :
  forall set, NoDup set -> NoDup (fold_left (addPartial AUTHOR) lines set).
Proof.
  induction lines as [|line lines IH]; intros set H; simpl; [assumption|].
  apply IH. unfold addPartial.
  destruct (hasBothNames AUTHOR _); [now apply NoDup_add | assumption].
Qed.

Lemma in_partialMatches (h repoPath : string) :
  In h (partialMatches execSync AUTHOR SINCE_DATE UNTIL_DATE repoPath) <->
  exists line,
    In line (nonBlankLines
               (value (runCommand execSync
                         (partialAuthorCommand AUTHOR SINCE_DATE UNTIL_DATE)
                         repoPath)))
    /\ hasBothNames AUTHOR (authorOf line) = true
    /\ h = hashOf line.
Proof.
  unfold partialMatches. rewrite in_map_iff. split.
  - intros (line & <- & Hin). apply filter_In in Hin. exists line. tauto.
  - intros (line & Hin & Hb & ->). exists line. split; [reflexivity|].
    apply filter_In. tauto.
Qed.

(** A guard [if (out)] around a loop over the non-blank lines of [out]
    changes nothing: an empty output has no such line. *)
Lemma guard_lines {S} (F : list string -> S) (out : string) (s : S) :
  F [] = s ->
  (if truthy out then F (nonBlankLines out) else s) = F (nonBlankLines out).
Proof. intros E. destruct out; [now rewrite <- E | reflexivity]. Qed.

(** The commits found, as three rounds of additions to one set. *)
Lemma getCommits_value (repoPath : string) :
  value (getCommits execSync AUTHOR SINCE_DATE UNTIL_DATE repoPath) =
    fold_left (addPartial AUTHOR)
      (nonBlankLines
         (value (runCommand execSync
                   (partialAuthorCommand AUTHOR SINCE_DATE UNTIL_DATE)
                   repoPath)))
      (addAll
         (addAll []
            (exactMatches execSync AUTHOR SINCE_DATE UNTIL_DATE repoPath))
         (reversedMatches execSync AUTHOR SINCE_DATE UNTIL_DATE repoPath)).
Proof.
  unfold getCommits. rewrite !value_bind, value_ret.
  rewrite (guard_lines (fun lines => fold_left (addPartial AUTHOR) lines _))
    by reflexivity.
  f_equal. unfold reversedMatches, exactMatches.
  destruct (2 <=? List.length (nameParts AUTHOR))%nat.
  - rewrite value_bind, value_ret.
    rewrite (guard_lines (fun lines => addAll _ lines)) by reflexivity.
    f_equal. now rewrite (guard_lines (fun lines => addAll [] lines)).
  - rewrite value_ret. simpl addAll at 1.
    now rewrite (guard_lines (fun lines => addAll [] lines)).
Qed.


Lemma getCommits_members (repoPath h : string) :
  In h (value (getCommits execSync AUTHOR SINCE_DATE UNTIL_DATE repoPath)) <->
  In h (exactMatches execSync AUTHOR SINCE_DATE UNTIL_DATE repoPath)
  \/ In h (reversedMatches execSync AUTHOR SINCE_DATE UNTIL_DATE repoPath)
  \/ In h (partialMatches execSync AUTHOR SINCE_DATE UNTIL_DATE repoPath).
Proof.
  rewrite getCommits_value, in_fold_addPartial, !in_addAll,
    in_partialMatches.
  simpl. tauto.
Qed.

Lemma getCommits_NoDup (repoPath : string) :
  NoDup (value (getCommits execSync AUTHOR SINCE_DATE UNTIL_DATE repoPath)).
Proof.
  rewrite getCommits_value.
  apply NoDup_fold_addPartial, NoDup_addAll, NoDup_addAll. constructor.
Qed.

(** *** The window of the strategy queries *)

Lemma window_fullDay (pre post : string) :
  fullDayWindow SINCE_DATE UNTIL_DATE
    (pre ++ window SINCE_DATE UNTIL_DATE ++ post) = true.
Proof.
  unfold fullDayWindow, window. rewrite !app_assoc_s.
  apply andb_true_intro. split; apply includes_app.
  - exact (includes_mid " " ("--since=" ++ quoted (SINCE_DATE ++ "T00:00:00"))
             _).
  - apply (includes_app " --since="). apply includes_app.
    exact (includes_mid " " ("--until=" ++ quoted (UNTIL_DATE ++ "T23:59:59"))
             post).
Qed.

Lemma strategyCommands_fullDay :
  Forall (fun command => fullDayWindow SINCE_DATE UNTIL_DATE command = true)
         (strategyCommands AUTHOR SINCE_DATE UNTIL_DATE).
Proof.
  assert (H : forall who post,
            fullDayWindow SINCE_DATE UNTIL_DATE
              ("git log --author=" ++ quoted who
               ++ window SINCE_DATE UNTIL_DATE ++ post) = true).
  { intros who post.
    rewrite <- (app_assoc_s "git log --author=" (quoted who)).
    apply window_fullDay. }
  unfold strategyCommands. constructor; [apply H|].
  apply Forall_app. split.
  - destruct (2 <=? List.length (nameParts AUTHOR))%nat; repeat constructor.
    apply H.
  - repeat constructor. apply H.
Qed.

End Collector.

(** The text of the strategy queries. *)
Lemma logCommand_text (AUTHOR SINCE_DATE UNTIL_DATE : string) :
  logCommand AUTHOR SINCE_DATE UNTIL_DATE
  = ("git log --author=" ++ quoted AUTHOR
     ++ " --since=" ++ quoted (SINCE_DATE ++ "T00:00:00")
     ++ " --until=" ++ quoted (UNTIL_DATE ++ "T23:59:59")
     ++ " --pretty=format:" ++ quoted "%H")%string.
Proof. unfold logCommand, window. now rewrite !app_assoc_s. Qed.

Lemma reversedCommand_text (AUTHOR SINCE_DATE UNTIL_DATE : string) :
  reversedCommand AUTHOR SINCE_DATE UNTIL_DATE
  = ("git log --author="
     ++ quoted (last (split SPACE AUTHOR) "" ++ ", "
                ++ join " " (removelast (split SPACE AUTHOR)))
     ++ " --since=" ++ quoted (SINCE_DATE ++ "T00:00:00")
     ++ " --until=" ++ quoted (UNTIL_DATE ++ "T23:59:59")
     ++ " --pretty=format:" ++ quoted "%H")%string.
Proof.
  unfold reversedCommand, window, reversedAuthor, lastNamePart, nameParts.
  now rewrite !app_assoc_s.
Qed.

Lemma partialAuthorCommand_text (AUTHOR SINCE_DATE UNTIL_DATE : string) :
  partialAuthorCommand AUTHOR SINCE_DATE UNTIL_DATE
  = ("git log --author=" ++ quoted (hd "" (split SPACE AUTHOR))
     ++ " --since=" ++ quoted (SINCE_DATE ++ "T00:00:00")
     ++ " --until=" ++ quoted (UNTIL_DATE ++ "T23:59:59")
     ++ " --pretty=format:" ++ quoted "%H %an")%string.
Proof.
  unfold partialAuthorCommand, window, firstNamePart, nameParts.
  now rewrite !app_assoc_s.
Qed.



(** The test of the third strategy, spelled out. *)
Lemma hasBothNames_spec (AUTHOR authorName : string) :
  hasBothNames AUTHOR authorName = true <->
  includes (toLowerCase authorName)
           (toLowerCase (hd "" (split SPACE AUTHOR))) = true
  /\ includes (toLowerCase authorName)
              (toLowerCase (last (split SPACE AUTHOR) "")) = true.
Proof. unfold hasBothNames. apply andb_true_iff. Qed.

(** C3.  In the second copy of the script the commits returned are
    without duplicates, and a commit is returned exactly when one of
    three strategies finds it: it is a line of the answer to the query
    by the author's name; or the name has two parts or more and it is a
    line of the answer to the query by the name turned into
    [Last, First]; or it is the text before the first space of a line of
    the answer to the query by the first part of the name, and the rest
    of that line, put in lower case, contains the first part of the name
    in lower case and the last part in lower case.  With the name
    [Jane Doe] the second query asks for [Doe, Jane] and every commit it
    lists is returned; a commit the third query lists with the author
    [Doe, Jane] is returned; a commit that only the third query lists,
    with an author that lacks one of the two parts, is not.  The first
    copy of the script asks the query by the author's name only and
    returns the lines of its answer: with the name [Jane Doe] and a
    history that records [Doe, Jane] it returns nothing. *)
Theorem getCommits_union :
  (forall execSync AUTHOR SINCE_DATE UNTIL_DATE repoPath,
     let commits :=
       value (getCommits execSync AUTHOR SINCE_DATE UNTIL_DATE repoPath) in
     let answer := fun command =>
       filter (fun hash => truthy (trim hash))
         (split LF (value (runCommand execSync command repoPath))) in
     let query := fun who format =>
       ("git log --author=" ++ quoted who
        ++ " --since=" ++ quoted (SINCE_DATE ++ "T00:00:00")
        ++ " --until=" ++ quoted (UNTIL_DATE ++ "T23:59:59")
        ++ " --pretty=format:" ++ quoted format)%string in
     let first := hd "" (split SPACE AUTHOR) in
     let family := last (split SPACE AUTHOR) "" in
     let reversed :=
       (family ++ ", " ++ join " " (removelast (split SPACE AUTHOR)))%string in
     NoDup commits
     /\ forall h,
          In h commits <->
          In h (answer (query AUTHOR "%H"))
          \/ ((2 <= List.length (split SPACE AUTHOR))%nat
              /\ In h (answer (query reversed "%H")))
          \/ exists line,
               In line (answer (query first "%H %an"))
               /\ h = hd "" (split SPACE line)
               /\ includes
                    (toLowerCase (join " " (tl (split SPACE line))))
                    (toLowerCase first) = true
               /\ includes
                    (toLowerCase (join " " (tl (split SPACE line))))
                    (toLowerCase family) = true)
  /\ reversedAuthor "Jane Doe" = "Doe, Jane"
  /\ (forall execSync SINCE_DATE UNTIL_DATE repoPath out h,
        execSync (reversedCommand "Jane Doe" SINCE_DATE UNTIL_DATE) repoPath
          = Some out ->
        In h (nonBlankLines (trim out)) ->
        In h (value (getCommits execSync "Jane Doe" SINCE_DATE UNTIL_DATE
                       repoPath)))
  /\ (forall execSync SINCE_DATE UNTIL_DATE repoPath out h,
        execSync (partialAuthorCommand "Jane Doe" SINCE_DATE UNTIL_DATE)
                 repoPath = Some out ->
        In (h ++ " Doe, Jane")%string (nonBlankLines (trim out)) ->
        split SPACE h = [h] ->
        In h (value (getCommits execSync "Jane Doe" SINCE_DATE UNTIL_DATE
                       repoPath)))
  /\ (forall execSync AUTHOR SINCE_DATE UNTIL_DATE repoPath h,
        ~ In h (nonBlankLines
                  (value (runCommand execSync
                            (logCommand AUTHOR SINCE_DATE UNTIL_DATE)
                            repoPath))) ->
        ~ In h (nonBlankLines
                  (value (runCommand execSync
                            (reversedCommand AUTHOR SINCE_DATE UNTIL_DATE)
                            repoPath))) ->
        (forall line,
           In line (nonBlankLines
                      (value (runCommand execSync
                                (partialAuthorCommand AUTHOR SINCE_DATE
                                   UNTIL_DATE)
                                repoPath))) ->
           h = hd "" (split SPACE line) ->
           includes (toLowerCase (join " " (tl (split SPACE line))))
                    (toLowerCase (hd "" (split SPACE AUTHOR))) = false
           \/ includes (toLowerCase (join " " (tl (split SPACE line))))
                       (toLowerCase (last (split SPACE AUTHOR) "")) = false) ->
        ~ In h (value (getCommits execSync AUTHOR SINCE_DATE UNTIL_DATE
                         repoPath)))
  /\ value (getCommits historyTool "Jane Doe" "2025-07-01" "2025-07-31"
              "/repo") = ["abc"; "def"; "q1"]
  /\ (forall execSync AUTHOR SINCE_DATE UNTIL_DATE repoPath,
        let stdout :=
          value (runCommand execSync
                   ("git log --author=" ++ quoted AUTHOR
                    ++ " --since=" ++ quoted SINCE_DATE
                    ++ " --until=" ++ quoted UNTIL_DATE
                    ++ " --pretty=format:" ++ quoted "%H")
                   repoPath) in
        value (Rev1.getCommits execSync AUTHOR SINCE_DATE UNTIL_DATE repoPath)
        = if truthy stdout then split LF stdout else [])
  /\ historyTool (reversedCommand "Jane Doe" "2025-06-01" "2025-06-30")
                 "/repo"
     = Some ("abc" ++ str LF ++ "def" ++ str LF)%string
  /\ value (Rev1.getCommits historyTool "Jane Doe" "2025-06-01" "2025-06-30"
              "/repo") = []
  /\ value (getCommits historyTool "Jane Doe" "2025-06-01" "2025-06-30"
              "/repo") = ["abc"; "def"; "q1"].
Proof.
  split.
  { intros execSync AUTHOR SINCE_DATE UNTIL_DATE repoPath
      commits answer query first family reversed. split.
    - apply getCommits_NoDup.
    - intros h. unfold commits. rewrite getCommits_members.
      rewrite in_partialMatches. unfold exactMatches, reversedMatches.
      rewrite logCommand_text, reversedCommand_text,
        partialAuthorCommand_text.
      fold first family reversed.
      fold (query AUTHOR "%H") (query reversed "%H") (query first "%H %an").
      unfold nonBlankLines. fold (answer (query AUTHOR "%H"))
        (answer (query reversed "%H")) (answer (query first "%H %an")).
      assert (Hthird :
        (exists line,
           In line (answer (query first "%H %an"))
           /\ hasBothNames AUTHOR (authorOf line) = true
           /\ h = hashOf line)
        <-> (exists line,
               In line (answer (query first "%H %an"))
               /\ h = hd "" (split SPACE line)
               /\ includes
                    (toLowerCase (join " " (tl (split SPACE line))))
                    (toLowerCase first) = true
               /\ includes
                    (toLowerCase (join " " (tl (split SPACE line))))
                    (toLowerCase family) = true)).
      { split; intros (line & Hin & H); exists line; (split; [exact Hin|]).
        - destruct H as [Hboth Hh]. split; [exact Hh|].
          now apply hasBothNames_spec.
        - destruct H as [Hh Hboth]. split; [|exact Hh].
          now apply hasBothNames_spec. }
      rewrite Hthird.
      change (nameParts AUTHOR) with (split SPACE AUTHOR).
      destruct (2 <=? List.length (split SPACE AUTHOR))%nat eqn:E;
        [apply Nat.leb_le in E | apply Nat.leb_gt in E].
      + tauto.
      + simpl In. split; [tauto|].
        intros [H|[[Hlen _]|H]]; [tauto | lia | tauto]. }
  split; [reflexivity|].
  split.
  { intros execSync SINCE_DATE UNTIL_DATE repoPath out h Hout Hh.
    apply getCommits_members. right. left.
    unfold reversedMatches.
    change (2 <=? List.length (nameParts "Jane Doe"))%nat with true.
    cbv iota. now rewrite runCommand_value, Hout. }
  split.
  { intros execSync SINCE_DATE UNTIL_DATE repoPath out h Hout Hh Hsplit.
    apply getCommits_members. right. right.
    apply in_partialMatches. exists (h ++ " Doe, Jane")%string.
    rewrite runCommand_value, Hout. split; [exact Hh|].
    unfold authorOf, hashOf.
    change (h ++ " Doe, Jane")%string
      with (h ++ String SPACE "Doe, Jane")%string.
    rewrite (split_one_more SPACE h "Doe, Jane" Hsplit). split; reflexivity. }
  split.
  { intros execSync AUTHOR SINCE_DATE UNTIL_DATE repoPath h Hexact Hreversed
      Hpartial Hin.
    apply getCommits_members in Hin as [H|[H|H]].
    - now apply Hexact.
    - unfold reversedMatches in H.
      destruct (2 <=? List.length (nameParts AUTHOR))%nat; [|exact H].
      now apply Hreversed.
    - apply in_partialMatches in H as (line & Hline & Hboth & Hh).
      apply hasBothNames_spec in Hboth as [H1 H2]. unfold authorOf in H1, H2.
      destruct (Hpartial line Hline Hh) as [E|E];
        [rewrite H1 in E | rewrite H2 in E]; discriminate E. }
  split; [vm_compute; reflexivity|].
  split.
  { intros execSync AUTHOR SINCE_DATE UNTIL_DATE repoPath stdout.
    unfold Rev1.getCommits. now rewrite value_bind, value_ret. }
  repeat split; vm_compute; reflexivity.
Qed.

Lemma getCommits_union_witness :
  In "abc" (value (getCommits sampleTool "Jane Doe" "2025-07-01"
                     "2025-07-31" "/repo"))
  /\ In "def" (value (getCommits sampleTool "Jane Doe" "2025-07-01"
                        "2025-07-31" "/repo"))
  /\ ~ In "xyz" (value (getCommits sampleTool "Jane Doe" "2025-07-01"
                          "2025-07-31" "/repo")).
Proof.
  destruct getCommits_union as (_ & _ & Hreversed & Hpartial & Hnot & _).
  split.
  - apply (Hreversed sampleTool "2025-07-01" "2025-07-31" "/repo"
             ("abc" ++ str LF ++ "def" ++ str LF)%string "abc").
    + reflexivity.
    + simpl. tauto.
  - split.
    + apply (Hpartial sampleTool "2025-07-01" "2025-07-31" "/repo"
               ("abc Doe, Jane" ++ str LF ++ "xyz Janet Smith" ++ str LF
                ++ "def Doe, Jane")%string "def").
      * reflexivity.
      * simpl. tauto.
      * reflexivity.
    + apply (Hnot sampleTool "Jane Doe" "2025-07-01" "2025-07-31" "/repo"
               "xyz").
      * simpl. tauto.
      * simpl. intros [H|[H|[]]]; discriminate H.
      * simpl. intros line [<-|[<-|[<-|[]]]] H;
          try discriminate H. right. reflexivity.
Defined.




(** *** The first copy of the script

    Its [getCommits] asks one question, with bare dates, and returns the
    lines of the answer; its [getListOfFiles] adds every line as it is,
    the empty one of an empty answer included. *)

Lemma Rev1_getCommits_query (execSync : string -> string -> option string)
    (AUTHOR SINCE_DATE UNTIL_DATE repoPath : string) :
  issued (Rev1.getCommits execSync AUTHOR SINCE_DATE UNTIL_DATE repoPath)
  = ["git log --author=" ++ quoted AUTHOR ++ " --since=" ++ quoted SINCE_DATE
     ++ " --until=" ++ quoted UNTIL_DATE ++ " --pretty=format:"
     ++ quoted "%H"]%string.
Proof. reflexivity. Qed.

Lemma Rev1_getCommits_bare_dates :
  fullDayWindow "2025-06-01" "2025-06-30"
    (Rev1.logCommand "Jane Doe" "2025-06-01" "2025-06-30") = false.
Proof. vm_compute. reflexivity. Qed.

Lemma Rev1_getListOfFiles_keeps_blank :
  value (Rev1.getListOfFiles (fun _ _ => None) ["abc"] "/repo") = [""]
  /\ value (getListOfFiles (fun _ _ => None) ["abc"] "/repo") = [].
Proof. split; reflexivity. Qed.

End GitFacts.

(* ================================================================== *)
(** * Further properties of the script *)
(* ================================================================== *)

(** ** Splitting and joining *)

Module TextFacts.
Import JS JSFacts.

Lemma split_cons_inv (c : ascii) (s : string) :
  exists h t, split c s = h :: t.
Proof.
  destruct (split c s) as [|h t] eqn:E.
  - now elim (split_nonempty c s).
  - now exists h, t.
Qed.

(** Splitting at a separator that stands between two texts. *)
Lemma split_app_sep (c : ascii) (s1 s2 : string) :
  split c (s1 ++ String c s2) = split c s1 ++ split c s2.
Proof.
  induction s1 as [|a s1 IH]; simpl.
  - now rewrite Ascii.eqb_refl.
  - destruct (Ascii.eqb a c).
    + now rewrite IH.
    + rewrite IH. destruct (split_cons_inv c s1) as (h & t & ->).
      reflexivity.
Qed.

(** Joining what was split gives the text back. *)
Lemma join_split (c : ascii) (s : string) :
  join (str c) (split c s) = s.
Proof.
  induction s as [|a s IH]; simpl; [reflexivity|].
  destruct (split_cons_inv c s) as (h & t & E). rewrite E in *.
  destruct (Ascii.eqb a c) eqn:Ea.
  - apply Ascii.eqb_eq in Ea. subst a.
    change (join (str c) ("" :: h :: t))
      with (String c (join (str c) (h :: t))).
    now rewrite IH.
  - destruct t as [|x t].
    + simpl in *. now rewrite IH.
    + change (join (str c) (String a h :: x :: t))
        with (String a (join (str c) (h :: x :: t))).
      now rewrite IH.
Qed.


Lemma includes_inv (s sub : string) :
  includes s sub = true -> exists pre post, s = (pre ++ sub ++ post)%string.
Proof.
  induction s as [|a s IH]; unfold includes; fold includes; intros H;
    apply orb_true_iff in H as [H|H].
  - destruct (startsWith_inv _ _ H) as [r E]. now exists "", r.
  - discriminate.
  - destruct (startsWith_inv _ _ H) as [r E]. now exists "", r.
  - destruct (IH H) as (pre & post & ->). now exists (String a pre), post.
Qed.

Lemma includes_iff (s sub : string) :
  includes s sub = true <-> exists pre post, s = (pre ++ sub ++ post)%string.
Proof.
  split; [apply includes_inv|]. intros (pre & post & ->).
  apply includes_mid.
Qed.

Lemma includes_trans (s mid sub : string) :
  includes s mid = true -> includes mid sub = true -> includes s sub = true.
Proof.
  intros H1 H2. apply includes_inv in H1 as (p1 & q1 & ->).
  apply includes_inv in H2 as (p2 & q2 & ->).
  apply includes_iff. exists (p1 ++ p2)%string, (q2 ++ q1)%string.
  now rewrite !app_assoc_s.
Qed.

Lemma lowerChar_idem (c : ascii) : lowerChar (lowerChar c) = lowerChar c.
Proof. destruct c as [[] [] [] [] [] [] [] []]; reflexivity. Qed.

Lemma toLowerCase_idem (s : string) :
  toLowerCase (toLowerCase s) = toLowerCase s.
Proof.
  induction s as [|c s IH]; simpl; [reflexivity|].
  now rewrite lowerChar_idem, IH.
Qed.

Lemma lowerChar_space (c : ascii) :
  Ascii.eqb (lowerChar c) SPACE = Ascii.eqb c SPACE.
Proof. destruct c as [[] [] [] [] [] [] [] []]; reflexivity. Qed.

(** Lower-casing does not move the spaces. *)
Lemma split_toLowerCase (s : string) :
  split SPACE (toLowerCase s) = map toLowerCase (split SPACE s).
Proof.
  induction s as [|c s IH]; simpl; [reflexivity|].
  rewrite lowerChar_space, IH.
  destruct (Ascii.eqb c SPACE); [reflexivity|].
  destruct (split_cons_inv SPACE s) as (h & t & ->). reflexivity.
Qed.

End TextFacts.

(** ** Diff Parser, further *)

Module DiffParserMore.
Import JS DiffParser JSFacts DiffParserFacts TextFacts.

Lemma parseLine_keeps (st : state) (line : string) :
  isAddition line = false ->
  lineNumbers (parseLine st line) = lineNumbers st.
Proof.
  intros H. unfold parseLine. unfold isAddition in H. rewrite H.
  destruct (startsWith line "@@"); [now destruct (hunkMatch line)|].
  now destruct (negb (startsWith line "\")).
Qed.

Lemma run_count (lines : list string) :
  forall st,
    List.length (lineNumbers (run st lines))
    = (List.length (lineNumbers st)
       + List.length (filter isAddition lines))%nat.
Proof.
  induction lines as [|line lines IH]; intros st.
  - simpl. lia.
  - rewrite run_cons, IH. simpl filter.
    destruct (isAddition line) eqn:E.
    + rewrite (parseLine_addition _ _ E). simpl.
      rewrite length_app. simpl. lia.
    + now rewrite (parseLine_keeps _ _ E).
Qed.

(** X1.  Whatever the text, [parseDiff] returns one number for every
    line that begins with [+] but not with [+++], and no other number:
    the result is as long as the text has such lines. *)
Theorem parseDiff_one_per_addition (diffOutput : string) :
  List.length (parseDiff diffOutput)
  = List.length (filter (fun line => startsWith line "+"
                                     && negb (startsWith line "+++"))
                        (split LF diffOutput)).
Proof.
  unfold parseDiff. rewrite run_count. reflexivity.
Qed.

(** What is recorded does not depend on what was recorded before. *)
Lemma parseLine_acc (n : N) (acc : list N) (line : string) :
  parseLine (mkState n acc) line
  = mkState (startLine (parseLine (mkState n []) line))
            (acc ++ lineNumbers (parseLine (mkState n []) line)).
Proof.
  unfold parseLine.
  destruct (startsWith line "@@").
  - destruct (hunkMatch line); simpl; now rewrite app_nil_r.
  - destruct (startsWith line "+" && negb (startsWith line "+++"));
      [reflexivity|].
    destruct (negb (startsWith line "\")); simpl; now rewrite app_nil_r.
Qed.

Lemma run_acc (lines : list string) :
  forall n acc,
    run (mkState n acc) lines
    = mkState (startLine (run (mkState n []) lines))
              (acc ++ lineNumbers (run (mkState n []) lines)).
Proof.
  induction lines as [|line lines IH]; intros n acc.
  - simpl. now rewrite app_nil_r.
  - rewrite !run_cons, parseLine_acc.
    destruct (parseLine (mkState n []) line) as [m new]. simpl.
    rewrite IH, (IH m new). simpl. now rewrite app_assoc.
Qed.

(** After a reset the cursor no longer depends on where it was. *)
Lemma run_after_reset (st : state) (line : string) (lines : list string) :
  resets line = true ->
  run st (line :: lines)
  = mkState (startLine (run init (line :: lines)))
            (lineNumbers st ++ lineNumbers (run init (line :: lines))).
Proof.
  intros H. unfold resets in H. apply andb_true_iff in H as [H1 H2].
  destruct (hunkMatch line) as [c|] eqn:E; [|discriminate].
  rewrite !run_cons, !(parseLine_reset _ line c H1 E).
  destruct st as [n acc]. simpl. apply run_acc.
Qed.

(** X2.  Two diffs, one after the other: when the second begins with a
    line that resets the cursor (a hunk header), parsing the two texts
    joined by a line break gives the numbers of the first followed by
    the numbers of the second. *)
Theorem parseDiff_concat (first second : string) :
  resets (hd "" (split LF second)) = true ->
  parseDiff (first ++ str LF ++ second)
  = parseDiff first ++ parseDiff second.
Proof.
  intros H. unfold parseDiff.
  change (first ++ str LF ++ second)%string
    with (first ++ String LF second)%string.
  rewrite split_app_sep, run_app.
  destruct (split_cons_inv LF second) as (line & lines & E).
  rewrite E in *. simpl in H.
  now rewrite (run_after_reset _ line lines H).
Qed.

Lemma parseDiff_concat_witness :
  parseDiff (unlines ["@@ -1 +1,2 @@"; "+a"; "+b"] ++ str LF
             ++ unlines ["@@ -9 +20 @@"; "+c"])
  = parseDiff (unlines ["@@ -1 +1,2 @@"; "+a"; "+b"])
    ++ parseDiff (unlines ["@@ -9 +20 @@"; "+c"]).
Proof.
  apply (parseDiff_concat (unlines ["@@ -1 +1,2 @@"; "+a"; "+b"])
                          (unlines ["@@ -9 +20 @@"; "+c"])).
  reflexivity.
Defined.





End DiffParserMore.

(** ** Attribution Engine, further *)

Module AttributionMore.
Import Attribution AttributionFacts.

Lemma existsb_same_members (testCase : LineRange) (lines1 lines2 : list N) :
  (forall l, In l lines1 <-> In l lines2) ->
  existsb (touches testCase) lines1 = existsb (touches testCase) lines2.
Proof.
  intros H. apply eq_true_iff_eq. rewrite !updated_spec.
  split; intros (l & Hin & Hl); exists l; (split; [now apply H | exact Hl]).
Qed.

(** X4.  Only which lines changed matters, not how often a line is
    listed nor in what order: two collections with the same members
    flag the same test cases.  (The changed lines of a file are the
    results of all commits put end to end, so a line can be listed
    several times.) *)
Theorem getUpdatedTestCases_members_only
    (testCases : list LineRange) (lines1 lines2 : list N) :
  (forall l, In l lines1 <-> In l lines2) ->
  getUpdatedTestCases testCases lines1 = getUpdatedTestCases testCases lines2.
Proof.
  intros H. unfold getUpdatedTestCases. apply filter_ext.
  intros testCase. now apply existsb_same_members.
Qed.

Lemma getUpdatedTestCases_members_only_witness :
  getUpdatedTestCases [mkRange 1 3; mkRange 5 9] [7; 2; 7; 7]%N
  = getUpdatedTestCases [mkRange 1 3; mkRange 5 9] [2; 7]%N.
Proof.
  apply (getUpdatedTestCases_members_only
           [mkRange 1 3; mkRange 5 9] [7; 2; 7; 7]%N [2; 7]%N).
  intros l. simpl. tauto.
Defined.

(** X5.  Nothing is flagged without a cause, and more changes never
    flag less.  With no changed line the result is empty; a range whose
    end lies before its start is never flagged; and a test case flagged
    for some changed lines stays flagged when lines are added. *)
Theorem getUpdatedTestCases_monotone :
  (forall testCases, getUpdatedTestCases testCases [] = [])
  /\ (forall testCases updateLines testCase,
        (end_ testCase < start testCase)%N ->
        ~ In testCase (getUpdatedTestCases testCases updateLines))
  /\ (forall testCases lines1 lines2 testCase,
        incl lines1 lines2 ->
        In testCase (getUpdatedTestCases testCases lines1) ->
        In testCase (getUpdatedTestCases testCases lines2)).
Proof.
  split.
  { intros testCases. unfold getUpdatedTestCases.
    induction testCases as [|testCase testCases IH]; [reflexivity|].
    simpl. exact IH. }
  split.
  { intros testCases updateLines testCase Hinv Hin.
    unfold getUpdatedTestCases in Hin. apply filter_In in Hin as [_ H].
    apply updated_spec in H as (l & _ & Hl). lia. }
  intros testCases lines1 lines2 testCase Hincl Hin.
  unfold getUpdatedTestCases in *. apply filter_In in Hin as [Hin H].
  apply filter_In. split; [exact Hin|].
  apply updated_spec in H as (l & Hl & Hr). apply updated_spec.
  exists l. split; [now apply Hincl | exact Hr].
Qed.

Lemma getUpdatedTestCases_monotone_witness :
  ~ In (mkRange 9 5) (getUpdatedTestCases [mkRange 9 5] [7%N])
  /\ In (mkRange 5 9) (getUpdatedTestCases [mkRange 5 9] [1; 7]%N).
Proof.
  destruct getUpdatedTestCases_monotone as (_ & Hinverted & Hmore).
  split.
  - apply Hinverted. reflexivity.
  - apply (Hmore [mkRange 5 9] [7%N] [1; 7]%N).
    + intros l [<-|[]]. simpl. tauto.
    + simpl. tauto.
Defined.

End AttributionMore.

(** ** Test-Block Extractor, further *)

Module TestBlocksMore.
Import JS Attribution TestBlocks TestBlocksFacts.

(** X6.  How reading a test file can end.  The function throws exactly
    when something exists at the path and either it cannot be read or
    what is read does not parse; it never throws for a path at which
    nothing exists, and whenever it returns for an existing file the
    result is what the traversal of the parsed tree collects. *)
Theorem getTestCasesLineNumbersByFile_outcome
    (existsSync : string -> bool) (readFileSync : string -> option string)
    (parse : string -> option Node) (filePath : string) :
  (getTestCasesLineNumbersByFile existsSync readFileSync parse filePath
     = Thrown
   <-> existsSync filePath = true
       /\ (readFileSync filePath = None
           \/ exists code, readFileSync filePath = Some code
                           /\ parse code = None))
  /\ (forall ranges,
        existsSync filePath = true ->
        getTestCasesLineNumbersByFile existsSync readFileSync parse filePath
          = Returned ranges ->
        exists code ast,
          readFileSync filePath = Some code /\ parse code = Some ast
          /\ ranges = traverse ast).
Proof.
  unfold getTestCasesLineNumbersByFile.
  destruct (existsSync filePath); simpl.
  - destruct (readFileSync filePath) as [code|].
    + destruct (parse code) as [ast|] eqn:Ep.
      * split.
        -- split; [discriminate|].
           intros [_ [H|(code' & [= <-] & H)]]; congruence.
        -- intros ranges _ [= <-]. now exists code, ast.
      * split.
        -- split; [|reflexivity]. intros _. split; [reflexivity|].
           right. now exists code.
        -- intros ranges _ H. discriminate H.
    + split.
      * split; [|reflexivity]. intros _. split; [reflexivity | now left].
      * intros ranges _ H. discriminate H.
  - split.
    + split; [discriminate | intros [H _]; discriminate].
    + intros ranges H. discriminate H.
Qed.

Lemma getTestCasesLineNumbersByFile_outcome_witness :
  exists code ast,
    (if String.eqb "a.test.js" "a.test.js" then Some "src" else None)
      = Some code
    /\ (if String.eqb code "src" then Some sampleAst else None) = Some ast
    /\ [mkRange 2 3] = traverse ast.
Proof.
  destruct (getTestCasesLineNumbersByFile_outcome
              (fun path => String.eqb path "a.test.js")
              (fun path => if String.eqb path "a.test.js" then Some "src"
                           else None)
              (fun code => if String.eqb code "src" then Some sampleAst
                           else None)
              "a.test.js") as [_ H].
  apply (H [mkRange 2 3]); reflexivity.
Defined.

(** X7.  The ranges are as good as the locations the parser gives: when
    every call in the tree starts on a line that is not after the line
    it ends on, every range returned has [start <= end]. *)
Theorem traverse_ranges_ordered (ast : Node) :
  (forall loc callee arguments,
     Inside (CallExpression loc callee arguments) ast ->
     (line (loc_start loc) <= line (loc_end loc))%N) ->
  Forall (fun range => (start range <= end_ range)%N) (traverse ast).
Proof.
  intros Hloc. apply Forall_forall. intros range Hin.
  apply traverse_sound in Hin as (loc & callee & arguments & Hi & _ & ->).
  simpl. now apply (Hloc loc callee arguments).
Qed.

Lemma inside_call_ordered (x : Node) :
  forall ast,
    Inside x ast ->
    Forall (fun c => (line (loc_start (fst c)) <= line (loc_end (fst c)))%N)
           (calls ast) ->
    forall loc callee arguments,
      x = CallExpression loc callee arguments ->
      (line (loc_start loc) <= line (loc_end loc))%N.
Proof.
  induction 1 as [|o p c _ IH|o p c _ IH|l f args _ IH
                 |l f args a Ha _ IH|children a Ha _ IH];
    intros Hall loc callee arguments E; simpl in Hall.
  - subst x. simpl in Hall. inversion Hall. assumption.
  - apply Forall_app in Hall as [H1 _]. now apply (IH H1 loc callee arguments).
  - apply Forall_app in Hall as [_ H2]. now apply (IH H2 loc callee arguments).
  - inversion Hall as [|? ? _ Hrest]; subst.
    apply Forall_app in Hrest as [H1 _].
    now apply (IH H1 loc callee arguments).
  - inversion Hall as [|? ? _ Hrest]; subst.
    apply Forall_app in Hrest as [_ H2].
    rewrite Forall_flat_map, Forall_forall in H2.
    now apply (IH (H2 a Ha) loc callee arguments).
  - rewrite Forall_flat_map, Forall_forall in Hall.
    now apply (IH (Hall a Ha) loc callee arguments).
Qed.

Lemma traverse_ranges_ordered_witness :
  Forall (fun range => (start range <= end_ range)%N) (traverse sampleAst).
Proof.
  apply (traverse_ranges_ordered sampleAst).
  intros loc callee arguments Hin.
  apply (inside_call_ordered _ sampleAst Hin) with callee arguments;
    [|reflexivity].
  simpl. repeat constructor; simpl; lia.
Defined.

End TestBlocksMore.

(** ** Test-file filter, further *)

Module TestFilesMore.
Import JS Minimatch TestFiles JSFacts TextFacts TestFilesFacts.

Lemma append_empty_r (s : string) : (s ++ "")%string = s.
Proof. induction s as [|c s IH]; simpl; [reflexivity | now rewrite IH]. Qed.

Lemma includes_refl (s : string) : includes s s = true.
Proof.
  apply includes_iff. exists "", "". simpl. now rewrite append_empty_r.
Qed.

Lemma endsWith_includes (s suffix : string) :
  endsWith s suffix = true -> includes s suffix = true.
Proof.
  induction s as [|c s IH]; unfold endsWith; fold endsWith; intros H;
    apply orb_true_iff in H as [H|H].
  - apply String.eqb_eq in H. subst. reflexivity.
  - discriminate.
  - apply String.eqb_eq in H. subst. apply includes_refl.
  - apply includes_later. now apply IH.
Qed.

(** A part of a joined text occurs in it. *)
Lemma includes_join (sep part : string) (parts : list string) :
  In part parts -> includes (join sep parts) part = true.
Proof.
  induction parts as [|p parts IH]; [contradiction|].
  intros [<-|Hin].
  - destruct parts as [|x parts]; [apply includes_refl|].
    apply includes_here.
  - destruct parts as [|x parts]; [contradiction|].
    change (join sep (p :: x :: parts))
      with (p ++ sep ++ join sep (x :: parts))%string.
    apply includes_app, includes_app. now apply IH.
Qed.

Lemma includes_split (c : ascii) (s part : string) :
  In part (split c s) -> includes s part = true.
Proof.
  intros H. rewrite <- (join_split c s) at 1. now apply includes_join.
Qed.

Lemma in_dropInnerEmpty (part : string) (parts : list string) :
  In part (dropInnerEmpty parts) -> In part parts.
Proof.
  induction parts as [|p parts IH]; [contradiction|].
  destruct parts as [|x parts]; [trivial|].
  change (dropInnerEmpty (p :: x :: parts))
    with (if truthy p then p :: dropInnerEmpty (x :: parts)
          else dropInnerEmpty (x :: parts)).
  destruct (truthy p).
  - intros [<-|H]; [now left | right; now apply IH].
  - intros H. right. now apply IH.
Qed.

Lemma in_slashSplit (part file : string) :
  In part (slashSplit file) -> includes file part = true.
Proof.
  unfold slashSplit. intros H. apply (includes_split SLASH).
  destruct (split SLASH file) as [|p rest]; [contradiction|].
  destruct H as [<-|H]; [now left|]. right. now apply in_dropInnerEmpty.
Qed.

Lemma matchRest_head (ext : string) (file : list string) :
  matchRest ext file = true ->
  exists part rest, file = part :: rest /\ starDotExt ext part = true.
Proof.
  destruct file as [|part [|[|c x] [|y rest]]]; simpl; try discriminate;
    intros H; eauto.
Qed.

Lemma globstar_part (ext : string) (file : list string) :
  globstar ext file = true ->
  exists part, In part file /\ starDotExt ext part = true.
Proof.
  induction file as [|swallowee rest IH]; [discriminate|].
  unfold globstar; fold globstar. intros H.
  apply orb_true_iff in H as [H|H].
  - apply matchRest_head in H as (part & rest' & [= <- <-] & H).
    exists swallowee. split; [now left | exact H].
  - destruct (startsWith swallowee "."); [discriminate|].
    destruct (IH H) as (part & Hin & Hp). exists part.
    split; [now right | exact Hp].
Qed.

Lemma minimatch_includes (file pattern ext : string) :
  extOf pattern = Some ext -> minimatch file pattern = true ->
  includes file ext = true.
Proof.
  intros E H. unfold minimatch in H. rewrite E in H.
  apply globstar_part in H as (part & Hin & Hp).
  unfold starDotExt in Hp. apply andb_true_iff in Hp as [_ Hp].
  apply (includes_trans file part ext).
  - now apply in_slashSplit.
  - now apply endsWith_includes.
Qed.

(** X8.  Every path the filter keeps holds one of the five endings
    [.spec.js], [.test.js], [.test.tsx], [.test.jsx], [.test.ts]; the
    empty path is therefore never kept, whatever list the filter is
    given. *)
Theorem getTestCaseFiles_have_extension (files : list string) (file : string) :
  In file (getTestCaseFiles files) ->
  (exists ext,
     In ext [".spec.js"; ".test.js"; ".test.tsx"; ".test.jsx"; ".test.ts"]
     /\ includes file ext = true)
  /\ file <> "".
Proof.
  intros Hin. unfold getTestCaseFiles in Hin.
  apply filter_In in Hin as [_ H].
  assert (Hext : exists ext,
            In ext [".spec.js"; ".test.js"; ".test.tsx"; ".test.jsx";
                    ".test.ts"]
            /\ includes file ext = true).
  { unfold isTestCaseFile in H. rewrite !orb_true_iff in H.
    destruct H as [[[[H|H]|H]|H]|H];
      eapply minimatch_includes in H; try reflexivity;
      eexists; (split; [|exact H]); simpl; tauto. }
  split; [exact Hext|].
  destruct Hext as (ext & Hext & Hinc). intros ->.
  simpl in Hext.
  destruct Hext as [<-|[<-|[<-|[<-|[<-|[]]]]]]; discriminate Hinc.
Qed.

Lemma getTestCaseFiles_have_extension_witness :
  (exists ext,
     In ext [".spec.js"; ".test.js"; ".test.tsx"; ".test.jsx"; ".test.ts"]
     /\ includes "src/a.test.js" ext = true)
  /\ "src/a.test.js" <> "".
Proof.
  apply (getTestCaseFiles_have_extension
           [""; "src/a.test.js"; "src/b.js"] "src/a.test.js").
  simpl. tauto.
Defined.

Lemma split_dot_first (r : string) :
  exists h t, split SLASH (String "." r) = String "." h :: t.
Proof.
  simpl. destruct (split_cons_inv SLASH r) as (h & t & ->). now exists h, t.
Qed.

Lemma globstar_dot_first (ext h : string) (rest : list string) :
  globstar ext (String "." h :: rest) = false.
Proof.
  unfold globstar; fold globstar.
  assert (Hdot : startsWith (String "." h) "." = true)
    by (unfold startsWith; simpl; now destruct h).
  assert (Hpart : starDotExt ext (String "." h) = false)
    by (unfold starDotExt; now rewrite Hdot).
  assert (E : matchRest ext (String "." h :: rest) = false).
  { destruct rest as [|[|c x] [|y rest]]; simpl; auto. }
  now rewrite E, Hdot.
Qed.

(** X9.  A path that begins with a dot is never a test file: neither a
    hidden file at the top nor anything below a hidden directory at the
    top passes the filter, whatever its ending. *)
Theorem getTestCaseFiles_skips_hidden (files : list string) (file : string) :
  startsWith file "." = true -> ~ In file (getTestCaseFiles files).
Proof.
  intros Hdot Hin. unfold getTestCaseFiles in Hin.
  apply filter_In in Hin as [_ H].
  destruct (startsWith_inv _ _ Hdot) as [r ->].
  assert (E : forall pattern, minimatch ("." ++ r) pattern = false).
  { intros pattern. unfold minimatch, slashSplit.
    destruct (extOf pattern) as [ext|]; [|reflexivity].
    change ("." ++ r)%string with (String "." r).
    destruct (split_dot_first r) as (h & t & ->).
    apply globstar_dot_first. }
  unfold isTestCaseFile in H. rewrite !E in H. discriminate H.
Qed.

Lemma getTestCaseFiles_skips_hidden_witness :
  ~ In ".github/ci.test.js"
       (getTestCaseFiles [".github/ci.test.js"; ".hidden.spec.js";
                          "src/a.test.js"]).
Proof.
  apply (getTestCaseFiles_skips_hidden
           [".github/ci.test.js"; ".hidden.spec.js"; "src/a.test.js"]
           ".github/ci.test.js").
  reflexivity.
Defined.

End TestFilesMore.

(** ** Queries, files, lines and totals, further *)

Module GitMore.
Import JS Shell DiffParser Git JSFacts ShellFacts GitFacts TextFacts
       DiffParserFacts.

(** X10.  What [runCommand] hands to its callers: the answer of the
    tool with the white space around it removed, and the empty text
    when the tool fails or answers with white space only.  The text is
    never changed by trimming it again, so a caller's [if (stdout)]
    tells an answer from none; and the one command is run once. *)
Theorem runCommand_trimmed
    (execSync : string -> string -> option string) (command cwd : string) :
  let out := value (runCommand execSync command cwd) in
  trim out = out
  /\ (out = "" \/ whitespaceOnly out = false)
  /\ (execSync command cwd = None -> out = "")
  /\ (forall raw, execSync command cwd = Some raw ->
                  out = trim raw
                  /\ (whitespaceOnly raw = true -> out = ""))
  /\ issued (runCommand execSync command cwd) = [command].
Proof.
  intros out. unfold out. rewrite runCommand_value.
  destruct (execSync command cwd) as [raw|].
  - split; [apply trim_idem|].
    split.
    { destruct (trim raw) as [|c t] eqn:E; [now left|]. right.
      now apply (trim_result raw (String c t)). }
    split; [discriminate|].
    split; [|reflexivity].
    intros raw' [= <-]. split; [reflexivity | apply trim_whitespaceOnly].
  - split; [reflexivity|]. split; [now left|]. split; [reflexivity|].
    split; [discriminate | reflexivity].
Qed.

Lemma runCommand_trimmed_witness :
  value (runCommand sampleTool "git show --pretty= --name-only abc" "/repo")
  = trim ("src/a.test.js" ++ str LF ++ " " ++ str LF ++ "src/b.js" ++ str LF)
  /\ value (runCommand sampleTool "git status" "/repo") = "".
Proof.
  destruct (runCommand_trimmed sampleTool
              "git show --pretty= --name-only abc" "/repo")
    as (_ & _ & _ & Hsome & _).
  destruct (runCommand_trimmed sampleTool "git status" "/repo")
    as (_ & _ & Hnone & _).
  split.
  - apply (Hsome ("src/a.test.js" ++ str LF ++ " " ++ str LF ++ "src/b.js"
                  ++ str LF)%string). reflexivity.
  - apply Hnone. reflexivity.
Defined.

(** *** One query for every commit *)

Lemma issued_forEach {A S} (body : S -> A -> Shell S)
    (command : A -> string) (l : list A) :
  (forall s a, issued (body s a) = [command a]) ->
  forall s, issued (forEach l body s) = map command l.
Proof.
  intros H. induction l as [|a l IH]; intros s; simpl; [reflexivity|].
  now rewrite issued_bind, H, IH.
Qed.

Lemma one_query_per_commit_diff
    (execSync : string -> string -> option string)
    (commits : list string) (filePath repoPath : string) :
  issued (getTestCasesUpdatedLineNumbersByFile execSync filePath commits
            repoPath)
  = map (diffCommand filePath) commits.
Proof.
  unfold getTestCasesUpdatedLineNumbersByFile. apply issued_forEach.
  intros s a. now rewrite issued_bind, runCommand_issued, issued_ret.
Qed.

Lemma one_query_per_commit_show
    (execSync : string -> string -> option string)
    (commits : list string) (repoPath : string) :
  issued (getListOfFiles execSync commits repoPath) = map showCommand commits.
Proof.
  unfold getListOfFiles. apply issued_forEach. intros s a.
  now rewrite issued_bind, runCommand_issued, issued_ret.
Qed.

Lemma one_query_per_commit_numstat
    (execSync : string -> string -> option string)
    (commits : list string) (repoPath : string) :
  issued (getTotalLinesByAuthor execSync commits repoPath)
  = map numstatCommand commits.
Proof.
  unfold getTotalLinesByAuthor. apply issued_forEach. intros s a.
  now rewrite issued_bind, runCommand_issued, issued_ret.
Qed.

(** X11.  The three loops over the commits ask the tool once for every
    commit, in the order of the commits and nothing else: the name-only
    listing for the files, the zero-context diff of the file for the
    changed lines, the numstat summary for the total.  A commit listed
    twice is asked about twice; no query is repeated after a failure. *)
Theorem one_query_per_commit
    (execSync : string -> string -> option string)
    (commits : list string) (filePath repoPath : string) :
  issued (getListOfFiles execSync commits repoPath)
    = map showCommand commits
  /\ issued (getTestCasesUpdatedLineNumbersByFile execSync filePath commits
               repoPath)
    = map (diffCommand filePath) commits
  /\ issued (getTotalLinesByAuthor execSync commits repoPath)
    = map numstatCommand commits.
Proof.
  split; [|split].
  - apply one_query_per_commit_show.
  - apply one_query_per_commit_diff.
  - apply one_query_per_commit_numstat.
Qed.

(** *** The changed lines of a file *)

Lemma fold_left_append {A B} (f : A -> list B) (l : list A) :
  forall acc, fold_left (fun acc a => acc ++ f a) l acc
              = acc ++ flat_map f l.
Proof.
  induction l as [|a l IH]; intros acc; simpl.
  - now rewrite app_nil_r.
  - now rewrite IH, app_assoc.
Qed.

Lemma updated_lines_value
    (execSync : string -> string -> option string)
    (filePath : string) (commits : list string) (repoPath : string) :
  value (getTestCasesUpdatedLineNumbersByFile execSync filePath commits
           repoPath)
  = flat_map (fun commit =>
                parseDiff (value (runCommand execSync
                                    (diffCommand filePath commit) repoPath)))
             commits.
Proof.
  unfold getTestCasesUpdatedLineNumbersByFile. rewrite value_forEach.
  rewrite <- (app_nil_l (flat_map _ _)), <- fold_left_append.
  apply fold_left_pointwise. intros acc commit.
  rewrite value_bind, value_ret.
  destruct (value (runCommand execSync (diffCommand filePath commit)
                              repoPath)); [|reflexivity].
  simpl. now rewrite app_nil_r.
Qed.

(** X12.  The changed lines of a file are the results of [parseDiff] on
    the diff of every commit, put end to end in the order of the
    commits, duplicates kept.  The two copies of the script agree: the
    guard [if (diffOutput)] of the second copy only skips a text on
    which [parseDiff] returns nothing anyway. *)
Theorem updated_lines_concat
    (execSync : string -> string -> option string)
    (filePath : string) (commits : list string) (repoPath : string) :
  value (getTestCasesUpdatedLineNumbersByFile execSync filePath commits
           repoPath)
  = flat_map (fun commit =>
                parseDiff (value (runCommand execSync
                                    (diffCommand filePath commit) repoPath)))
             commits
  /\ value (Rev1.getTestCasesUpdatedLineNumbersByFile execSync filePath
              commits repoPath)
  = value (getTestCasesUpdatedLineNumbersByFile execSync filePath commits
             repoPath).
Proof.
  split; [apply updated_lines_value|]. rewrite updated_lines_value.
  unfold Rev1.getTestCasesUpdatedLineNumbersByFile. rewrite value_forEach.
  rewrite <- (app_nil_l (flat_map _ _)), <- fold_left_append.
  apply fold_left_pointwise. intros acc commit.
  now rewrite value_bind, value_ret.
Qed.

(** *** Totals *)

Lemma sumN_app (l1 l2 : list N) : sumN (l1 ++ l2) = (sumN l1 + sumN l2)%N.
Proof.
  induction l1 as [|x l1 IH]; simpl; [reflexivity|].
  unfold sumN in *. simpl. rewrite IH. lia.
Qed.

Lemma getTotalLinesByAuthor_value
    (execSync : string -> string -> option string)
    (commits : list string) (repoPath : string) :
  (sumN (map (fun commit =>
                sumN (map contribution
                        (numstatLines execSync commit repoPath)))
             commits) <= MAX_SAFE)%N ->
  value (getTotalLinesByAuthor execSync commits repoPath)
  = sumN (map (fun commit =>
                 sumN (map contribution
                         (numstatLines execSync commit repoPath)))
              commits).
Proof.
  intros H. rewrite getTotalLinesByAuthor_fold, total_fold;
    [apply N.add_0_l|]. now rewrite N.add_0_l.
Qed.

(** X13.  As long as the lines that all the commits add, taken
    together, are 2^53 at most, the total of a list of commits is the
    sum of the totals of its parts: the commits are counted one by one,
    each on its own, so a commit listed twice is counted twice. *)
Theorem getTotalLinesByAuthor_additive
    (execSync : string -> string -> option string)
    (commits1 commits2 : list string) (repoPath : string) :
  (sumN (map (fun commit =>
                sumN (map contribution
                        (numstatLines execSync commit repoPath)))
             (commits1 ++ commits2)) <= MAX_SAFE)%N ->
  value (getTotalLinesByAuthor execSync (commits1 ++ commits2) repoPath)
  = (value (getTotalLinesByAuthor execSync commits1 repoPath)
     + value (getTotalLinesByAuthor execSync commits2 repoPath))%N.
Proof.
  intros H. rewrite (getTotalLinesByAuthor_value _ _ _ H).
  rewrite map_app, sumN_app in *.
  rewrite !getTotalLinesByAuthor_value by lia. reflexivity.
Qed.

Lemma getTotalLinesByAuthor_additive_witness :
  let execSync := fun (command cwd : string) =>
    Some ("12" ++ str TAB ++ "3" ++ str TAB ++ "a.js" ++ str LF
          ++ "7" ++ str TAB ++ "0" ++ str TAB ++ "b.js")%string in
  value (getTotalLinesByAuthor execSync (["c1"; "c2"] ++ ["c1"]) "/repo")
  = (value (getTotalLinesByAuthor execSync ["c1"; "c2"] "/repo")
     + value (getTotalLinesByAuthor execSync ["c1"] "/repo"))%N.
Proof.
  cbv zeta.
  apply (getTotalLinesByAuthor_additive
           (fun command cwd =>
              Some ("12" ++ str TAB ++ "3" ++ str TAB ++ "a.js" ++ str LF
                    ++ "7" ++ str TAB ++ "0" ++ str TAB ++ "b.js")%string)
           ["c1"; "c2"] ["c1"] "/repo").
  apply N.leb_le. reflexivity.
Defined.

(** *** The files, once more *)

Lemma addFile_known (files : list string) (line : string) :
  trim line = "" \/ In (trim line) files -> addFile files line = files.
Proof.
  unfold addFile. intros [E|Hin].
  - now rewrite E.
  - destruct (truthy (trim line)); [|reflexivity].
    unfold add. apply has_spec in Hin. now rewrite Hin.
Qed.

Lemma fold_addFile_known (lines : list string) (files : list string) :
  (forall line, In line lines -> trim line = "" \/ In (trim line) files) ->
  fold_left addFile lines files = files.
Proof.
  induction lines as [|line lines IH]; intros H; simpl; [reflexivity|].
  rewrite addFile_known by (apply H; now left).
  apply IH. intros l Hl. apply H. now right.
Qed.

(** X14.  A commit that was already gone through adds nothing: going
    through further commits that are all among the earlier ones leaves
    the list of files as it was, in content and in order. *)
Theorem getListOfFiles_repeated_commits
    (execSync : string -> string -> option string)
    (commits again : list string) (repoPath : string) :
  incl again commits ->
  value (getListOfFiles execSync (commits ++ again) repoPath)
  = value (getListOfFiles execSync commits repoPath).
Proof.
  intros Hincl. rewrite !getListOfFiles_fold, fold_left_app.
  set (files := fold_left (filesStep execSync repoPath) commits []).
  assert (Hknown : forall commit line,
            In commit commits ->
            In line (nameOnlyLines execSync commit repoPath) ->
            trim line = "" \/ In (trim line) files).
  { intros commit line Hc Hl.
    destruct (trim line) as [|c t] eqn:E; [now left|]. right.
    unfold files. apply in_fold_filesStep. right.
    exists commit, line. repeat split; try assumption. discriminate. }
  clearbody files.
  induction again as [|commit again IH]; [reflexivity|].
  simpl. unfold filesStep at 2.
  rewrite fold_addFile_known.
  - apply IH. intros c Hc. apply Hincl. now right.
  - intros line Hl. apply (Hknown commit); [|exact Hl].
    apply Hincl. now left.
Qed.

Lemma getListOfFiles_repeated_commits_witness :
  value (getListOfFiles sampleTool (["abc"; "def"] ++ ["def"; "abc"])
           "/repo")
  = value (getListOfFiles sampleTool ["abc"; "def"] "/repo").
Proof.
  apply (getListOfFiles_repeated_commits sampleTool ["abc"; "def"]
           ["def"; "abc"] "/repo").
  intros c [<-|[<-|[]]]; simpl; tauto.
Defined.

(** *** When the tool gives nothing *)

Lemma no_members_nil {A} (l : list A) : (forall x, ~ In x l) -> l = [].
Proof.
  destruct l as [|a l]; [reflexivity|]. intros H. elim (H a). now left.
Qed.

(** X15.  When the tool has no answer for any query in the repository
    (it fails, or prints white space only), nothing is found and nothing
    fails: no commits, no files, no changed lines, and a total of
    zero. *)
Theorem silent_tool_gives_nothing
    (execSync : string -> string -> option string)
    (AUTHOR SINCE_DATE UNTIL_DATE filePath repoPath : string)
    (commits : list string) :
  (forall command, value (runCommand execSync command repoPath) = "") ->
  value (getCommits execSync AUTHOR SINCE_DATE UNTIL_DATE repoPath) = []
  /\ value (getListOfFiles execSync commits repoPath) = []
  /\ value (getTestCasesUpdatedLineNumbersByFile execSync filePath commits
              repoPath) = []
  /\ value (getTotalLinesByAuthor execSync commits repoPath) = 0%N.
Proof.
  intros Hsilent. split; [|split; [|split]].
  - apply no_members_nil. intros h Hin.
    apply getCommits_members in Hin.
    unfold exactMatches, reversedMatches in Hin.
    destruct Hin as [H|[H|H]].
    + now rewrite Hsilent in H.
    + destruct (2 <=? List.length (nameParts AUTHOR))%nat; [|exact H].
      now rewrite Hsilent in H.
    + apply in_partialMatches in H as (line & H & _).
      now rewrite Hsilent in H.
  - apply no_members_nil. intros f Hin.
    rewrite getListOfFiles_fold in Hin.
    apply in_fold_filesStep in Hin as [[]|(c & l & _ & Hl & Et & Hne)].
    unfold nameOnlyLines in Hl. rewrite Hsilent in Hl.
    destruct Hl as [<-|[]]. now apply Hne.
  - rewrite updated_lines_value.
    induction commits as [|commit commits IH]; [reflexivity|].
    cbn [flat_map]. now rewrite Hsilent, IH.
  - rewrite getTotalLinesByAuthor_fold.
    induction commits as [|commit commits IH]; [reflexivity|].
    cbn [fold_left]. rewrite Hsilent. exact IH.
Qed.

Lemma silent_tool_gives_nothing_witness :
  value (getCommits (fun _ _ => None) "Jane Doe" "2025-07-01" "2025-07-31"
           "/repo") = []
  /\ value (getListOfFiles (fun _ _ => Some "  ") ["abc"] "/repo") = [].
Proof.
  destruct (silent_tool_gives_nothing (fun _ _ => None) "Jane Doe"
              "2025-07-01" "2025-07-31" "a.test.js" "/repo" ["abc"])
    as (H1 & _); [reflexivity|].
  destruct (silent_tool_gives_nothing (fun _ _ => Some "  ") "Jane Doe"
              "2025-07-01" "2025-07-31" "a.test.js" "/repo" ["abc"])
    as (_ & H2 & _); [reflexivity|].
  split; assumption.
Defined.

End GitMore.

(** ** Commit Collector, further *)

Module CollectorMore.
Import JS Shell Git JSFacts ShellFacts GitFacts TextFacts.

Lemma nameParts_last (rest last : string) :
  split SPACE last = [last] ->
  nameParts (rest ++ " " ++ last) = split SPACE rest ++ [last].
Proof.
  intros H. unfold nameParts.
  change (rest ++ " " ++ last)%string with (rest ++ String SPACE last)%string.
  now rewrite split_app_sep, H.
Qed.

(** X16.  The name turned round.  For a name that ends in a space and a
    last word, the second strategy asks for the last word, a comma and
    a space, and everything before that space, unchanged; and the query
    is issued.  For a name of one word no such query is issued: the
    strategies are the query by the name and the query by its first
    part, which is the whole name. *)
Theorem reversedAuthor_last_first :
  (forall rest last,
     split SPACE last = [last] ->
     reversedAuthor (rest ++ " " ++ last) = (last ++ ", " ++ rest)%string
     /\ forall SINCE_DATE UNTIL_DATE,
          strategyCommands (rest ++ " " ++ last) SINCE_DATE UNTIL_DATE
          = [logCommand (rest ++ " " ++ last) SINCE_DATE UNTIL_DATE;
             reversedCommand (rest ++ " " ++ last) SINCE_DATE UNTIL_DATE;
             partialAuthorCommand (rest ++ " " ++ last) SINCE_DATE
               UNTIL_DATE])
  /\ (forall name SINCE_DATE UNTIL_DATE,
        split SPACE name = [name] ->
        firstNamePart name = name
        /\ strategyCommands name SINCE_DATE UNTIL_DATE
           = [logCommand name SINCE_DATE UNTIL_DATE;
              partialAuthorCommand name SINCE_DATE UNTIL_DATE]).
Proof.
  split.
  - intros rest last Hlast. split.
    + unfold reversedAuthor, lastNamePart.
      rewrite (nameParts_last rest last Hlast), last_last, removelast_last.
      change " "%string with (str SPACE). now rewrite join_split.
    + intros SINCE_DATE UNTIL_DATE. unfold strategyCommands.
      rewrite (nameParts_last rest last Hlast), length_app.
      destruct (split_cons_inv SPACE rest) as (h & t & ->).
      assert (Hlen : (2 <=? List.length (h :: t) + List.length [last])%nat
                     = true) by (apply Nat.leb_le; simpl; lia).
      now rewrite Hlen.
  - intros name SINCE_DATE UNTIL_DATE Hname.
    unfold firstNamePart, strategyCommands, nameParts. rewrite Hname.
    split; reflexivity.
Qed.

Lemma reversedAuthor_last_first_witness :
  reversedAuthor "Mary Ann van Doe" = "Doe, Mary Ann van"
  /\ strategyCommands "Jane" "2025-07-01" "2025-07-31"
     = [logCommand "Jane" "2025-07-01" "2025-07-31";
        partialAuthorCommand "Jane" "2025-07-01" "2025-07-31"].
Proof.
  destruct reversedAuthor_last_first as [Hmany Hone].
  split.
  - apply (Hmany "Mary Ann van" "Doe"). reflexivity.
  - apply (Hone "Jane" "2025-07-01" "2025-07-31"). reflexivity.
Defined.

Lemma hd_map_toLowerCase (l : list string) :
  hd "" (map toLowerCase l) = toLowerCase (hd "" l).
Proof. now destruct l. Qed.

Lemma last_map_toLowerCase (l : list string) :
  last (map toLowerCase l) "" = toLowerCase (last l "").
Proof.
  induction l as [|a l IH]; [reflexivity|].
  destruct l as [|b l]; [reflexivity|]. exact IH.
Qed.

Lemma lower_name_parts (AUTHOR : string) :
  toLowerCase (firstNamePart AUTHOR) = firstNamePart (toLowerCase AUTHOR)
  /\ toLowerCase (lastNamePart AUTHOR) = lastNamePart (toLowerCase AUTHOR).
Proof.
  unfold firstNamePart, lastNamePart, nameParts.
  rewrite split_toLowerCase, hd_map_toLowerCase, last_map_toLowerCase.
  now split.
Qed.

(** X17.  Letter case plays no part in the test of the third strategy:
    two configured names that differ in case only, and two recorded
    names that differ in case only, are treated alike. *)
Theorem hasBothNames_ignores_case (AUTHOR AUTHOR' name name' : string) :
  toLowerCase AUTHOR = toLowerCase AUTHOR' ->
  toLowerCase name = toLowerCase name' ->
  hasBothNames AUTHOR name = hasBothNames AUTHOR' name'.
Proof.
  intros HA Hn. unfold hasBothNames.
  destruct (lower_name_parts AUTHOR) as [-> ->].
  destruct (lower_name_parts AUTHOR') as [-> ->].
  now rewrite HA, Hn.
Qed.

Lemma hasBothNames_ignores_case_witness :
  hasBothNames "Jane Doe" "Doe, Jane" = hasBothNames "JANE doe" "DOE, jane".
Proof.
  apply (hasBothNames_ignores_case "Jane Doe" "JANE doe" "Doe, Jane"
           "DOE, jane"); reflexivity.
Defined.

(** X18.  A line [hash author] of the third query, the hash without a
    space: the hash is the text before the first space and the author
    is all that follows it, further spaces included; the hash is added
    exactly when that author, in lower case, holds both the first and
    the last part of the configured name, in lower case; otherwise the
    set stays as it is. *)
Theorem addPartial_line (AUTHOR hash author : string) (set : list string) :
  split SPACE hash = [hash] ->
  hd "" (split SPACE (hash ++ " " ++ author)) = hash
  /\ join " " (tl (split SPACE (hash ++ " " ++ author))) = author
  /\ addPartial AUTHOR set (hash ++ " " ++ author)
     = if includes (toLowerCase author)
                   (toLowerCase (hd "" (split SPACE AUTHOR)))
          && includes (toLowerCase author)
                      (toLowerCase (last (split SPACE AUTHOR) ""))
       then (if existsb (String.eqb hash) set then set else set ++ [hash])
       else set.
Proof.
  intros Hhash.
  assert (E : split SPACE (hash ++ " " ++ author)
              = hash :: split SPACE author).
  { change (hash ++ " " ++ author)%string
      with (hash ++ String SPACE author)%string.
    now rewrite split_app_sep, Hhash. }
  assert (Ea : join " " (split SPACE author) = author)
    by (change " "%string with (str SPACE); apply join_split).
  unfold addPartial. rewrite E. simpl hd. simpl tl.
  rewrite Ea. now repeat split.
Qed.

Lemma addPartial_line_witness :
  addPartial "Jane Doe" ["abc"] ("def" ++ " " ++ "Jane  van  Doe")
  = ["abc"; "def"]
  /\ addPartial "Jane Doe" ["abc"] ("xyz" ++ " " ++ "Janet Smith")
     = ["abc"]
  /\ addPartial "Jane Doe" ["abc"] ("r2" ++ " " ++ "John Doe")
     = ["abc"]
  /\ addPartial "Jane Doe" ["abc"] ("abc" ++ " " ++ "DOE, JANE")
     = ["abc"].
Proof.
  destruct (addPartial_line "Jane Doe" "def" "Jane  van  Doe" ["abc"])
    as (_ & _ & H1); [reflexivity|].
  destruct (addPartial_line "Jane Doe" "xyz" "Janet Smith" ["abc"])
    as (_ & _ & H2); [reflexivity|].
  destruct (addPartial_line "Jane Doe" "r2" "John Doe" ["abc"])
    as (_ & _ & H3); [reflexivity|].
  destruct (addPartial_line "Jane Doe" "abc" "DOE, JANE" ["abc"])
    as (_ & _ & H4); [reflexivity|].
  repeat split; assumption.
Defined.

(** *** The first copy *)

Lemma in_fold_add (f : string) (items : list string) :
  forall set, In f (fold_left add items set) <-> In f set \/ In f items.
Proof. intros set. apply (in_addAll f items set). Qed.

Lemma Rev1_files_fold (execSync : string -> string -> option string)
    (repoPath : string) (commits : list string) :
  value (Rev1.getListOfFiles execSync commits repoPath)
  = fold_left (fun files commit =>
                 fold_left add (nameOnlyLines execSync commit repoPath) files)
              commits [].
Proof.
  unfold Rev1.getListOfFiles. rewrite value_forEach.
  apply fold_left_pointwise. intros files commit.
  now rewrite value_bind, value_ret.
Qed.

Lemma Rev1_in_fold (execSync : string -> string -> option string)
    (repoPath f : string) (commits : list string) :
  forall files,
    In f (fold_left
            (fun files commit =>
               fold_left add (nameOnlyLines execSync commit repoPath) files)
            commits files)
    <-> In f files
        \/ exists commit,
             In commit commits
             /\ In f (nameOnlyLines execSync commit repoPath).
Proof.
  induction commits as [|commit commits IH]; intros files; simpl.
  - split; [tauto|]. intros [H|(c & [] & _)]. exact H.
  - rewrite IH, in_fold_add. split.
    + intros [[H|H]|(c & Hc & H)]; [tauto| |].
      * right. exists commit. tauto.
      * right. exists c. tauto.
    + intros [H|(c & [<-|Hc] & H)]; [tauto|tauto|].
      right. exists c. tauto.
Qed.

Lemma Rev1_NoDup_fold (execSync : string -> string -> option string)
    (repoPath : string) (commits : list string) :
  forall files,
    NoDup files ->
    NoDup (fold_left
             (fun files commit =>
                fold_left add (nameOnlyLines execSync commit repoPath) files)
             commits files).
Proof.
  induction commits as [|commit commits IH]; intros files H; simpl;
    [assumption|].
  apply IH. now apply (NoDup_addAll _ files).
Qed.

(** X19.  The first copy of [getListOfFiles] keeps every line as it
    is: its result has no duplicates, and a text is in it exactly when
    it is a line of the listing of one of the commits.  So a commit
    whose listing is empty puts the empty text in the result; and every
    file the second copy returns is the trimmed form of one the first
    copy returns. *)
Theorem Rev1_getListOfFiles_lines
    (execSync : string -> string -> option string)
    (commits : list string) (repoPath : string) :
  let files1 := value (Rev1.getListOfFiles execSync commits repoPath) in
  NoDup files1
  /\ (forall f,
        In f files1 <->
        exists commit, In commit commits
                       /\ In f (nameOnlyLines execSync commit repoPath))
  /\ (forall commit,
        In commit commits ->
        value (runCommand execSync (showCommand commit) repoPath) = "" ->
        In "" files1)
  /\ (forall f,
        In f (value (getListOfFiles execSync commits repoPath)) ->
        exists line, In line files1 /\ trim line = f).
Proof.
  intros files1.
  assert (Hin : forall f,
            In f files1 <->
            exists commit, In commit commits
                           /\ In f (nameOnlyLines execSync commit repoPath)).
  { intros f. unfold files1. rewrite Rev1_files_fold, Rev1_in_fold.
    simpl. tauto. }
  split.
  { unfold files1. rewrite Rev1_files_fold. apply Rev1_NoDup_fold.
    constructor. }
  split; [exact Hin|].
  split.
  { intros commit Hc Hout. apply Hin. exists commit. split; [exact Hc|].
    unfold nameOnlyLines. rewrite Hout. now left. }
  intros f Hf. rewrite getListOfFiles_fold in Hf.
  apply in_fold_filesStep in Hf as [[]|(c & l & Hc & Hl & Et & _)].
  exists l. split; [|exact Et]. apply Hin. now exists c.
Qed.

Lemma Rev1_getListOfFiles_lines_witness :
  In "" (value (Rev1.getListOfFiles sampleTool ["abc"; "zzz"] "/repo"))
  /\ exists line,
       In line (value (Rev1.getListOfFiles sampleTool ["abc"; "zzz"]
                         "/repo"))
       /\ trim line = "src/b.js".
Proof.
  destruct (Rev1_getListOfFiles_lines sampleTool ["abc"; "zzz"] "/repo")
    as (_ & _ & Hblank & Htrim).
  split.
  - apply (Hblank "zzz"); [simpl; tauto | reflexivity].
  - apply Htrim. simpl. tauto.
Defined.

End CollectorMore.

(** ** The whole run *)

Module PipelineFacts.
Import JS Shell DiffParser Attribution TestFiles TestBlocks Git Pipeline
       ShellFacts GitFacts GitMore.

Lemma length_zero_nil {A} (l : list A) :
  (List.length l =? 0)%nat = true <-> l = [].
Proof. destruct l; simpl; split; congruence. Qed.

Lemma length_zero_false {A} (l : list A) :
  l <> [] -> (List.length l =? 0)%nat = false.
Proof. destruct l; simpl; congruence. Qed.

Lemma shell_eta {A} (m : Shell A) : m = (value m, issued m).
Proof. now destruct m. Qed.

Section World.
Variable execSync : string -> string -> option string.
Variable existsSync : string -> bool.
Variable readFileSync : string -> option string.
Variable parse : string -> option Node.
Variable pathJoin : string -> string -> string.
Variables repoPath : string.
Variable commits : list string.

(** The ranges of a test file, under its joined path. *)
Let extract (file : string) : outcome (list LineRange) :=
  getTestCasesLineNumbersByFile existsSync readFileSync parse
    (pathJoin repoPath file).

Let step := fileStep execSync existsSync readFileSync parse pathJoin
                     repoPath commits.

Let step1 := fileStep1 execSync existsSync readFileSync parse pathJoin
                       repoPath commits.

(** A loop whose body either adds to the list and runs some commands,
    or throws. *)
Lemma forEach_all_return
    (body : outcome (list LineRange) -> string
            -> Shell (outcome (list LineRange)))
    (found : string -> list LineRange) (commands : string -> list string)
    (files : list string) :
  (forall acc file,
     In file files ->
     body (Returned acc) file = (Returned (acc ++ found file), commands file)) ->
  forall acc,
    forEach files body (Returned acc)
    = (Returned (acc ++ flat_map found files), flat_map commands files).
Proof.
  induction files as [|file files IH]; intros H acc.
  - simpl. now rewrite app_nil_r.
  - cbn [forEach]. rewrite (H acc file) by now left.
    unfold bind. cbn [fst snd].
    rewrite IH by (intros a f Hf; apply H; now right).
    cbn [flat_map]. now rewrite <- app_assoc.
Qed.

Lemma forEach_after_throw
    (body : outcome (list LineRange) -> string
            -> Shell (outcome (list LineRange)))
    (files : list string) :
  (forall file, body Thrown file = (Thrown, [])) ->
  forEach files body Thrown = (Thrown, []).
Proof.
  intros H. induction files as [|file files IH]; [reflexivity|].
  cbn [forEach]. rewrite H. unfold bind. cbn [fst snd]. now rewrite IH.
Qed.

Lemma forEach_first_throw
    (body : outcome (list LineRange) -> string
            -> Shell (outcome (list LineRange)))
    (found : string -> list LineRange) (commands : string -> list string)
    (before after : list string) (bad : string) :
  (forall file, body Thrown file = (Thrown, [])) ->
  (forall acc file,
     In file before ->
     body (Returned acc) file = (Returned (acc ++ found file), commands file)) ->
  (forall acc, body (Returned acc) bad = (Thrown, [])) ->
  forall acc,
    forEach (before ++ bad :: after) body (Returned acc)
    = (Thrown, flat_map commands before).
Proof.
  intros Hthrown. induction before as [|file before IH]; intros H Hbad acc.
  - cbn [app forEach]. rewrite Hbad. unfold bind. cbn [fst snd].
    now rewrite forEach_after_throw.
  - cbn [app forEach]. rewrite (H acc file) by now left.
    unfold bind. cbn [fst snd].
    rewrite IH; [reflexivity | | exact Hbad].
    intros a f Hf. apply H. now right.
Qed.

Lemma step_returned (ranges : list LineRange) (acc : list LineRange)
    (file : string) :
  extract file = Returned ranges ->
  step (Returned acc) file
  = (Returned (acc ++ getUpdatedTestCases ranges
                        (value (getTestCasesUpdatedLineNumbersByFile
                                  execSync file commits repoPath))),
     map (diffCommand file) commits).
Proof.
  intros H. unfold step, fileStep. unfold extract in H. rewrite H.
  rewrite (shell_eta (bind _ _)).
  rewrite value_bind, value_ret, issued_bind, issued_ret, app_nil_r.
  now rewrite one_query_per_commit_diff.
Qed.

Lemma step_thrown (acc : list LineRange) (file : string) :
  extract file = Thrown -> step (Returned acc) file = (Thrown, []).
Proof.
  intros H. unfold step, fileStep. unfold extract in H. now rewrite H.
Qed.

Lemma Rev1_updated_lines (filePath : string) :
  Rev1.getTestCasesUpdatedLineNumbersByFile execSync filePath commits
    repoPath
  = getTestCasesUpdatedLineNumbersByFile execSync filePath commits repoPath.
Proof.
  rewrite (shell_eta (Rev1.getTestCasesUpdatedLineNumbersByFile _ _ _ _)),
    (shell_eta (getTestCasesUpdatedLineNumbersByFile _ _ _ _)).
  f_equal.
  - rewrite updated_lines_value.
    unfold Rev1.getTestCasesUpdatedLineNumbersByFile. rewrite value_forEach.
    rewrite <- (app_nil_l (flat_map _ _)), <- fold_left_append.
    apply fold_left_pointwise. intros acc commit.
    now rewrite value_bind, value_ret.
  - rewrite one_query_per_commit_diff.
    unfold Rev1.getTestCasesUpdatedLineNumbersByFile. apply issued_forEach.
    intros s a. now rewrite issued_bind, runCommand_issued, issued_ret.
Qed.

Lemma step1_returned (ranges : list LineRange) (acc : list LineRange)
    (file : string) :
  extract file = Returned ranges ->
  step1 (Returned acc) file
  = (Returned (acc ++ getUpdatedTestCases ranges
                        (value (getTestCasesUpdatedLineNumbersByFile
                                  execSync (pathJoin repoPath file) commits
                                  repoPath))),
     map (diffCommand (pathJoin repoPath file)) commits).
Proof.
  intros H. unfold step1, fileStep1. unfold extract in H. rewrite H.
  rewrite Rev1_updated_lines, (shell_eta (bind _ _)).
  rewrite value_bind, value_ret, issued_bind, issued_ret, app_nil_r.
  now rewrite one_query_per_commit_diff.
Qed.

(** The loop of the second copy while every file can be read. *)
Lemma forEach_returned (ranges : string -> list LineRange)
    (files : list string) :
  (forall file, In file files -> extract file = Returned (ranges file)) ->
  forEach files step (Returned [])
  = (Returned
       (flat_map
          (fun file =>
             getUpdatedTestCases (ranges file)
               (value (getTestCasesUpdatedLineNumbersByFile
                         execSync file commits repoPath)))
          files),
     flat_map (fun file => map (diffCommand file) commits) files).
Proof.
  intros H.
  apply (forEach_all_return step
           (fun file =>
              getUpdatedTestCases (ranges file)
                (value (getTestCasesUpdatedLineNumbersByFile
                          execSync file commits repoPath)))
           (fun file => map (diffCommand file) commits) files).
  intros acc file Hin. apply step_returned. now apply H.
Qed.

(** The loop of the first copy while every file can be read. *)
Lemma forEach_returned1 (ranges : string -> list LineRange)
    (files : list string) :
  (forall file, In file files -> extract file = Returned (ranges file)) ->
  forEach files step1 (Returned [])
  = (Returned
       (flat_map
          (fun file =>
             getUpdatedTestCases (ranges file)
               (value (getTestCasesUpdatedLineNumbersByFile
                         execSync (pathJoin repoPath file) commits
                         repoPath)))
          files),
     flat_map (fun file => map (diffCommand (pathJoin repoPath file)) commits)
              files).
Proof.
  intros H.
  apply (forEach_all_return step1
           (fun file =>
              getUpdatedTestCases (ranges file)
                (value (getTestCasesUpdatedLineNumbersByFile
                          execSync (pathJoin repoPath file) commits
                          repoPath)))
           (fun file => map (diffCommand (pathJoin repoPath file)) commits)
           files).
  intros acc file Hin. apply step1_returned. now apply H.
Qed.

(** The loop of the second copy up to the first file that throws. *)
Lemma forEach_crash (ranges : string -> list LineRange)
    (before after : list string) (bad : string) :
  (forall file, In file before -> extract file = Returned (ranges file)) ->
  extract bad = Thrown ->
  forEach (before ++ bad :: after) step (Returned [])
  = (Thrown, flat_map (fun file => map (diffCommand file) commits) before).
Proof.
  intros H Hbad.
  apply (forEach_first_throw step
           (fun file =>
              getUpdatedTestCases (ranges file)
                (value (getTestCasesUpdatedLineNumbersByFile
                          execSync file commits repoPath)))
           (fun file => map (diffCommand file) commits)).
  - reflexivity.
  - intros acc file Hin. apply step_returned. now apply H.
  - intros acc. now apply step_thrown.
Qed.

End World.

Lemma value_pair {A} (a : A) (commands : list string) :
  value (a, commands) = a.
Proof. reflexivity. Qed.

Lemma issued_pair {A} (a : A) (commands : list string) :
  issued (a, commands) = commands.
Proof. reflexivity. Qed.

Lemma bind_pair {A B} (m : Shell A) (f : A -> Shell B) :
  bind m f = (value (f (value m)), issued m ++ issued (f (value m))).
Proof.
  rewrite (shell_eta (bind m f)). now rewrite value_bind, issued_bind.
Qed.

Lemma unset_false (value : option string) :
  unset value = false ->
  exists text, value = Some text /\ interpolate value = text /\ text <> "".
Proof.
  destruct value as [[|c t]|]; simpl; try discriminate.
  intros _. exists (String c t). repeat split. discriminate.
Qed.

(** X20.  Nothing is asked of the tool before the checks have passed.
    The second copy ends with exit code 1, without a single query, when
    the repository path or the author is not set (or is empty) or when
    the repository has no [.git].  The first copy has the second check
    only: without a repository path it ends with an exception, and
    without an author it goes on and asks for the author [undefined]. *)
Theorem main_checks_first
    (execSync : string -> string -> option string)
    (existsSync : string -> bool) (readFileSync : string -> option string)
    (parse : string -> option Node) (pathJoin : string -> string -> string)
    (SINCE_DATE UNTIL_DATE : string) (REPO_PATH AUTHOR : option string) :
  (unset REPO_PATH || unset AUTHOR = true
   \/ existsSync (pathJoin (interpolate REPO_PATH) ".git") = false ->
   main execSync existsSync readFileSync parse pathJoin SINCE_DATE UNTIL_DATE
        REPO_PATH AUTHOR = (Exited 1, []))
  /\ (REPO_PATH = None ->
      main1 execSync existsSync readFileSync parse pathJoin SINCE_DATE
            UNTIL_DATE REPO_PATH AUTHOR = (Crashed, []))
  /\ (forall repoPath,
        REPO_PATH = Some repoPath ->
        existsSync (pathJoin repoPath ".git") = false ->
        main1 execSync existsSync readFileSync parse pathJoin SINCE_DATE
              UNTIL_DATE REPO_PATH AUTHOR = (Exited 1, []))
  /\ (forall repoPath,
        REPO_PATH = Some repoPath -> AUTHOR = None ->
        existsSync (pathJoin repoPath ".git") = true ->
        hd "" (issued (main1 execSync existsSync readFileSync parse pathJoin
                             SINCE_DATE UNTIL_DATE REPO_PATH AUTHOR))
        = Rev1.logCommand "undefined" SINCE_DATE UNTIL_DATE).
Proof.
  split; [|split; [|split]].
  - intros [H|H]; unfold main.
    + now rewrite H.
    + destruct (unset REPO_PATH || unset AUTHOR); [reflexivity|].
      unfold validateGitRepo. now rewrite H.
  - intros ->. reflexivity.
  - intros repoPath -> H. unfold main1, validateGitRepo. now rewrite H.
  - intros repoPath -> -> H. unfold main1, validateGitRepo. rewrite H.
    cbn [negb interpolate]. rewrite issued_bind. reflexivity.
Qed.

Lemma main_checks_first_witness :
  main sampleTool sampleExists sampleRead sampleParse sampleJoin
       "2025-07-01" "2025-07-31" (Some "/repo") (Some "") = (Exited 1, [])
  /\ main sampleTool sampleExists sampleRead sampleParse sampleJoin
          "2025-07-01" "2025-07-31" (Some "/elsewhere") (Some "Jane Doe")
     = (Exited 1, [])
  /\ main1 sampleTool sampleExists sampleRead sampleParse sampleJoin
           "2025-06-01" "2025-06-30" None (Some "Jane Doe") = (Crashed, [])
  /\ hd "" (issued (main1 sampleTool sampleExists sampleRead sampleParse
                          sampleJoin "2025-06-01" "2025-06-30"
                          (Some "/repo") None))
     = Rev1.logCommand "undefined" "2025-06-01" "2025-06-30".
Proof.
  split; [|split; [|split]].
  - apply (main_checks_first sampleTool sampleExists sampleRead sampleParse
             sampleJoin "2025-07-01" "2025-07-31" (Some "/repo") (Some "")).
    left. reflexivity.
  - apply (main_checks_first sampleTool sampleExists sampleRead sampleParse
             sampleJoin "2025-07-01" "2025-07-31" (Some "/elsewhere")
             (Some "Jane Doe")).
    right. reflexivity.
  - apply (main_checks_first sampleTool sampleExists sampleRead sampleParse
             sampleJoin "2025-06-01" "2025-06-30" None (Some "Jane Doe")).
    reflexivity.
  - apply (main_checks_first sampleTool sampleExists sampleRead sampleParse
             sampleJoin "2025-06-01" "2025-06-30" (Some "/repo") None
           ) with "/repo"; reflexivity.
Defined.

Section Run.
Variable execSync : string -> string -> option string.
Variable existsSync : string -> bool.
Variable readFileSync : string -> option string.
Variable parse : string -> option Node.
Variable pathJoin : string -> string -> string.
Variables SINCE_DATE UNTIL_DATE : string.
Variables REPO_PATH AUTHOR : option string.

Hypothesis repo_set : unset REPO_PATH = false.
Hypothesis author_set : unset AUTHOR = false.
Hypothesis repo_valid :
  existsSync (pathJoin (interpolate REPO_PATH) ".git") = true.

(** What [main] does once the checks have passed. *)
Lemma main_after_checks :
  main execSync existsSync readFileSync parse pathJoin SINCE_DATE UNTIL_DATE
       REPO_PATH AUTHOR
  = bind (getCommits execSync (interpolate AUTHOR) SINCE_DATE UNTIL_DATE
            (interpolate REPO_PATH))
      (fun commits =>
         if (List.length commits =? 0)%nat then ret NoCommits
         else
           bind (getListOfFiles execSync commits (interpolate REPO_PATH))
             (fun files =>
                if (List.length (getTestCaseFiles files) =? 0)%nat
                then ret NoTestFiles
                else
                  bind (forEach (getTestCaseFiles files)
                          (fileStep execSync existsSync readFileSync parse
                             pathJoin (interpolate REPO_PATH) commits)
                          (Returned []))
                    (fun updated =>
                       match updated with
                       | Thrown => ret Crashed
                       | Returned updatedTestCases =>
                           bind (getTotalLinesByAuthor execSync commits
                                   (interpolate REPO_PATH))
                             (fun totalLines =>
                                ret (Totals totalLines
                                       (N.of_nat
                                          (List.length updatedTestCases))))
                       end))).
Proof.
  unfold main, validateGitRepo.
  now rewrite repo_set, author_set, repo_valid.
Qed.

End Run.

(** X21.  The two early ends of a run of the second copy, once the
    checks have passed.  When no commit is found the run ends there and
    has asked the queries of the Commit Collector only: no listing, no
    diff, no summary.  When commits are found but none of their files
    is a test file, the run ends after one listing for every commit. *)
Theorem main_early_returns
    (execSync : string -> string -> option string)
    (existsSync : string -> bool) (readFileSync : string -> option string)
    (parse : string -> option Node) (pathJoin : string -> string -> string)
    (SINCE_DATE UNTIL_DATE : string) (REPO_PATH AUTHOR : option string) :
  unset REPO_PATH = false -> unset AUTHOR = false ->
  existsSync (pathJoin (interpolate REPO_PATH) ".git") = true ->
  let repoPath := interpolate REPO_PATH in
  let collect :=
    getCommits execSync (interpolate AUTHOR) SINCE_DATE UNTIL_DATE repoPath in
  let run :=
    main execSync existsSync readFileSync parse pathJoin SINCE_DATE
         UNTIL_DATE REPO_PATH AUTHOR in
  (value collect = [] -> run = (NoCommits, issued collect))
  /\ (value collect <> [] ->
      getTestCaseFiles
        (value (getListOfFiles execSync (value collect) repoPath)) = [] ->
      run = (NoTestFiles,
             issued collect ++ map showCommand (value collect))).
Proof.
  intros HR HA Hvalid repoPath collect run. unfold run.
  rewrite (main_after_checks _ _ _ _ _ _ _ _ _ HR HA Hvalid).
  fold repoPath. fold collect. rewrite bind_pair. split.
  - intros E. rewrite E. simpl. now rewrite app_nil_r.
  - intros Hne Hfiles. rewrite (length_zero_false _ Hne).
    rewrite value_bind, issued_bind, Hfiles. simpl.
    now rewrite app_nil_r, one_query_per_commit_show.
Qed.

Lemma main_early_returns_witness :
  main (fun _ _ => None) sampleExists sampleRead sampleParse sampleJoin
       "2025-07-01" "2025-07-31" (Some "/repo") (Some "Jane Doe")
  = (NoCommits,
     issued (getCommits (fun _ _ => None) "Jane Doe" "2025-07-01"
               "2025-07-31" "/repo")).
Proof.
  pose proof (main_early_returns (fun _ _ => None) sampleExists sampleRead
                sampleParse sampleJoin "2025-07-01" "2025-07-31"
                (Some "/repo") (Some "Jane Doe") eq_refl eq_refl eq_refl)
    as H.
  cbv zeta in H. destruct H as [H _]. apply H. reflexivity.
Defined.

(** X22.  A full run of the second copy.  When the checks pass, commits
    are found, test files are among their files and each of these can
    be read, the run prints the total of [getTotalLinesByAuthor] and
    the number of updated test cases summed over the test files, each
    file's ranges being compared with its own changed lines.  The tool
    is asked, in this order: the queries of the Commit Collector, one
    listing for every commit, for every test file one diff for every
    commit (naming the file as the listing gave it), and one summary
    for every commit. *)
Theorem main_totals
    (execSync : string -> string -> option string)
    (existsSync : string -> bool) (readFileSync : string -> option string)
    (parse : string -> option Node) (pathJoin : string -> string -> string)
    (SINCE_DATE UNTIL_DATE : string) (REPO_PATH AUTHOR : option string)
    (ranges : string -> list LineRange) :
  unset REPO_PATH = false -> unset AUTHOR = false ->
  existsSync (pathJoin (interpolate REPO_PATH) ".git") = true ->
  let repoPath := interpolate REPO_PATH in
  let collect :=
    getCommits execSync (interpolate AUTHOR) SINCE_DATE UNTIL_DATE repoPath in
  let commits := value collect in
  let testCaseFiles :=
    getTestCaseFiles (value (getListOfFiles execSync commits repoPath)) in
  commits <> [] -> testCaseFiles <> [] ->
  (forall file,
     In file testCaseFiles ->
     getTestCasesLineNumbersByFile existsSync readFileSync parse
       (pathJoin repoPath file) = Returned (ranges file)) ->
  main execSync existsSync readFileSync parse pathJoin SINCE_DATE UNTIL_DATE
       REPO_PATH AUTHOR
  = (Totals
       (value (getTotalLinesByAuthor execSync commits repoPath))
       (N.of_nat
          (List.length
             (flat_map
                (fun file =>
                   getUpdatedTestCases (ranges file)
                     (value (getTestCasesUpdatedLineNumbersByFile execSync
                               file commits repoPath)))
                testCaseFiles))),
     issued collect
     ++ map showCommand commits
     ++ flat_map (fun file => map (diffCommand file) commits) testCaseFiles
     ++ map numstatCommand commits).
Proof.
  intros HR HA Hvalid repoPath collect commits testCaseFiles Hc Hf Hranges.
  rewrite (main_after_checks _ _ _ _ _ _ _ _ _ HR HA Hvalid).
  fold repoPath. fold collect. rewrite bind_pair. fold commits.
  rewrite (length_zero_false _ Hc).
  rewrite value_bind, issued_bind. fold testCaseFiles.
  rewrite (length_zero_false _ Hf).
  rewrite value_bind, issued_bind.
  rewrite (forEach_returned execSync existsSync readFileSync parse pathJoin
             repoPath commits ranges testCaseFiles Hranges).
  rewrite !value_pair, issued_pair. cbv iota.
  rewrite value_bind, value_ret, issued_bind, issued_ret, app_nil_r.
  now rewrite one_query_per_commit_show, one_query_per_commit_numstat.
Qed.

Lemma main_totals_witness :
  value (main sampleTool2 sampleExists sampleRead sampleParse sampleJoin
              "2025-07-01" "2025-07-31" (Some "/repo") (Some "Jane Doe"))
  = Totals 3 1.
Proof.
  rewrite (main_totals sampleTool2 sampleExists sampleRead sampleParse
             sampleJoin "2025-07-01" "2025-07-31" (Some "/repo")
             (Some "Jane Doe") (fun _ => [mkRange 2 3])
             eq_refl eq_refl eq_refl).
  - reflexivity.
  - discriminate.
  - discriminate.
  - intros file [<-|[]]. reflexivity.
Defined.

(** X23.  One test file that cannot be read or parsed ends the whole
    run of the second copy with an exception: the files after it are
    not looked at, no diff is asked for it or for them, and the total
    of added lines is never asked for.  The queries made are those of
    the Commit Collector, one listing for every commit, and the diffs
    of the test files before the one that failed. *)
Theorem main_stops_at_broken_file
    (execSync : string -> string -> option string)
    (existsSync : string -> bool) (readFileSync : string -> option string)
    (parse : string -> option Node) (pathJoin : string -> string -> string)
    (SINCE_DATE UNTIL_DATE : string) (REPO_PATH AUTHOR : option string)
    (ranges : string -> list LineRange)
    (before after : list string) (bad : string) :
  unset REPO_PATH = false -> unset AUTHOR = false ->
  existsSync (pathJoin (interpolate REPO_PATH) ".git") = true ->
  let repoPath := interpolate REPO_PATH in
  let collect :=
    getCommits execSync (interpolate AUTHOR) SINCE_DATE UNTIL_DATE repoPath in
  let commits := value collect in
  commits <> [] ->
  getTestCaseFiles (value (getListOfFiles execSync commits repoPath))
    = before ++ bad :: after ->
  (forall file,
     In file before ->
     getTestCasesLineNumbersByFile existsSync readFileSync parse
       (pathJoin repoPath file) = Returned (ranges file)) ->
  getTestCasesLineNumbersByFile existsSync readFileSync parse
    (pathJoin repoPath bad) = Thrown ->
  main execSync existsSync readFileSync parse pathJoin SINCE_DATE UNTIL_DATE
       REPO_PATH AUTHOR
  = (Crashed,
     issued collect
     ++ map showCommand commits
     ++ flat_map (fun file => map (diffCommand file) commits) before).
Proof.
  intros HR HA Hvalid repoPath collect commits Hc Hfiles Hranges Hbad.
  rewrite (main_after_checks _ _ _ _ _ _ _ _ _ HR HA Hvalid).
  fold repoPath. fold collect. rewrite bind_pair. fold commits.
  rewrite (length_zero_false _ Hc).
  rewrite value_bind, issued_bind, Hfiles.
  rewrite length_zero_false by (now destruct before).
  rewrite value_bind, issued_bind.
  rewrite (forEach_crash execSync existsSync readFileSync parse pathJoin
             repoPath commits ranges before after bad Hranges Hbad).
  rewrite !value_pair, issued_pair. cbv iota.
  rewrite value_ret, issued_ret, app_nil_r.
  now rewrite one_query_per_commit_show.
Qed.

Lemma main_stops_at_broken_file_witness :
  value (main sampleTool2 sampleExists sampleRead brokenParse sampleJoin
              "2025-07-01" "2025-07-31" (Some "/repo") (Some "Jane Doe"))
  = Crashed.
Proof.
  rewrite (main_stops_at_broken_file sampleTool2 sampleExists sampleRead
             brokenParse sampleJoin "2025-07-01" "2025-07-31" (Some "/repo")
             (Some "Jane Doe") (fun _ => []) [] [] "src/a.test.js"
             eq_refl eq_refl eq_refl).
  - reflexivity.
  - discriminate.
  - reflexivity.
  - intros file [].
  - reflexivity.
Defined.

(** *** The first copy *)

Lemma Rev1_one_query_per_commit_show
    (execSync : string -> string -> option string)
    (commits : list string) (repoPath : string) :
  issued (Rev1.getListOfFiles execSync commits repoPath)
  = map showCommand commits.
Proof.
  unfold Rev1.getListOfFiles. apply issued_forEach. intros s a.
  now rewrite issued_bind, runCommand_issued, issued_ret.
Qed.

(** X24.  A full run of the first copy, under the same conditions as
    for the second: it prints the same two totals, computed from its
    own commits and files, and differs in how it names a test file to
    the tool: the diff queries carry the path joined to the repository
    path, not the path as the listing gave it. *)
Theorem main1_totals
    (execSync : string -> string -> option string)
    (existsSync : string -> bool) (readFileSync : string -> option string)
    (parse : string -> option Node) (pathJoin : string -> string -> string)
    (SINCE_DATE UNTIL_DATE repoPath : string) (AUTHOR : option string)
    (ranges : string -> list LineRange) :
  existsSync (pathJoin repoPath ".git") = true ->
  let collect :=
    Rev1.getCommits execSync (interpolate AUTHOR) SINCE_DATE UNTIL_DATE
      repoPath in
  let commits := value collect in
  let testCaseFiles :=
    getTestCaseFiles (value (Rev1.getListOfFiles execSync commits repoPath)) in
  commits <> [] -> testCaseFiles <> [] ->
  (forall file,
     In file testCaseFiles ->
     getTestCasesLineNumbersByFile existsSync readFileSync parse
       (pathJoin repoPath file) = Returned (ranges file)) ->
  main1 execSync existsSync readFileSync parse pathJoin SINCE_DATE UNTIL_DATE
        (Some repoPath) AUTHOR
  = (Totals
       (value (getTotalLinesByAuthor execSync commits repoPath))
       (N.of_nat
          (List.length
             (flat_map
                (fun file =>
                   getUpdatedTestCases (ranges file)
                     (value (getTestCasesUpdatedLineNumbersByFile execSync
                               (pathJoin repoPath file) commits repoPath)))
                testCaseFiles))),
     issued collect
     ++ map showCommand commits
     ++ flat_map (fun file =>
                    map (diffCommand (pathJoin repoPath file)) commits)
                 testCaseFiles
     ++ map numstatCommand commits).
Proof.
  intros Hvalid collect commits testCaseFiles Hc Hf Hranges.
  unfold main1, validateGitRepo. rewrite Hvalid. cbn [negb].
  fold collect. rewrite bind_pair. fold commits.
  rewrite (length_zero_false _ Hc).
  rewrite value_bind, issued_bind. fold testCaseFiles.
  rewrite (length_zero_false _ Hf).
  rewrite value_bind, issued_bind.
  rewrite (forEach_returned1 execSync existsSync readFileSync parse pathJoin
             repoPath commits ranges testCaseFiles Hranges).
  rewrite !value_pair, issued_pair. cbv iota.
  rewrite value_bind, value_ret, issued_bind, issued_ret, app_nil_r.
  now rewrite Rev1_one_query_per_commit_show, one_query_per_commit_numstat.
Qed.

Lemma main1_totals_witness :
  value (main1 sampleTool1 sampleExists sampleRead sampleParse sampleJoin
               "2025-06-01" "2025-06-30" (Some "/repo") (Some "Jane Doe"))
  = Totals 3 0
  /\ In (diffCommand (sampleJoin "/repo" "src/a.test.js") "abc")
        (issued (main1 sampleTool1 sampleExists sampleRead sampleParse
                       sampleJoin "2025-06-01" "2025-06-30" (Some "/repo")
                       (Some "Jane Doe"))).
Proof.
  rewrite (main1_totals sampleTool1 sampleExists sampleRead sampleParse
             sampleJoin "2025-06-01" "2025-06-30" "/repo" (Some "Jane Doe")
             (fun _ => [mkRange 2 3]) eq_refl).
  - split; [reflexivity | simpl; tauto].
  - discriminate.
  - discriminate.
  - intros file [<-|[]]. reflexivity.
Defined.

End PipelineFacts.
